(** * graph4kg/train.py: the training orchestrator

    A shallow embedding of [main] of [apps/graph4kg/train.py].  The function
    is a driver: everything it does is a call to a collaborator (the model,
    the dataloaders, the evaluator, the optimizer), guarded by the
    configuration and by the step counter.  The embedding therefore records
    the calls [main] makes, in order, together with the exception that ends
    the run if there is one.

    Collaborators are black boxes that return normally; the only exceptions
    modelled are the ones [main] itself raises: the two [ValueError]s and the
    [ZeroDivisionError] of Python's [%] on a zero interval.  Wall-clock
    timers and the floating-point loss accumulators are not modelled. *)

From Stdlib Require Import ZArith List String Ascii Bool Lia.
From Stdlib Require Import DecimalString DecimalZ.
Import ListNotations.

Local Open Scope string_scope.
Local Open Scope Z_scope.
Local Open Scope list_scope.

(** ** Python primitives used by [main] *)

(** [str(n)] for an [int]. *)
Definition str_of_int (n : Z) : string :=
  NilZero.string_of_int (Z.to_int n).

Definition startswith_sep (s : string) : bool :=
  match s with
  | String c _ => Ascii.eqb c "/"
  | EmptyString => false
  end.

Fixpoint endswith_sep (s : string) : bool :=
  match s with
  | EmptyString => false
  | String c EmptyString => Ascii.eqb c "/"
  | String _ s' => endswith_sep s'
  end.

(** [os.path.join(a, b)] of [posixpath], for two components. *)
Definition os_path_join (a b : string) : string :=
  if startswith_sep b then b
  else if String.eqb a "" || endswith_sep a then (a ++ b)%string
  else (a ++ "/" ++ b)%string.

(** ** Exceptions and the call-trace monad *)

Inductive exn : Type :=
| ValueError (msg : string)
| ZeroDivisionError.

Inductive result (A : Type) : Type :=
| Ok (a : A)
| Raise (e : exn).
Arguments Ok {A} a.
Arguments Raise {A} e.

(** ** Configuration ([args]) *)

Record Args : Type := {
  data_name : string;
  filter_sample : bool;
  filter_eval : bool;
  sample_weight : bool;
  async_update : bool;
  mlp_optimizer : string;
  mix_cpu_gpu : bool;
  num_epoch : Z;
  batch_size : Z;
  use_embedding_regularization : bool;
  log_interval : Z;
  valid : bool;
  eval_interval : Z;
  save_interval : Z;
  max_steps : Z;
  test : bool;
  save_path : string
}.

(** The two optimizer classes [main] can select. *)
Inductive optim_func : Type := Adam | Adagrad.

(** Which operand of [get_neg_score] is the fixed entity. *)
Inductive anchor : Type := HEmb | TEmb.

Inductive prefetched : Type := RelEmb | AllEntsEmb.

Inductive loader : Type := ValidLoader | TestLoader.

(** One element of the training stream: [(indexes, prefetch_embeddings, mode)].
    Of the tensors only what [main] branches on is kept: whether [rel_emb]
    and [all_ents_emb] are [None]. *)
Record Batch : Type := {
  b_has_all_ents_emb : bool;
  b_has_rel_emb : bool;
  b_mode : string
}.

Section Orchestrator.

(** The type of [trigraph.true_heads_for_tail_rel] and
    [trigraph.true_tails_for_head_rel]; [dataset.reader] owns it. *)
Variable TrueMap : Type.

Record TriGraph : Type := {
  true_heads_for_tail_rel : TrueMap;
  true_tails_for_head_rel : TrueMap
}.

(** [filter_dict]: the dictionary with keys ['head'] and ['tail']. *)
Record FilterDict : Type := {
  fd_head : TrueMap;
  fd_tail : TrueMap
}.

(** Calls made by [main], in the order of the source. *)
Inductive event : Type :=
| ESetSeed
| ESetLogger
| EReadTrigraph
| ESampledSubgraph
| EInitParallelEnv
| ECreateModel
| EStartAsyncUpdate
| EDataParallel
| ECreateOptimizer (f : optim_func)
| EWarn
| ECreateLossFunction
| ECreateDataloaders (filter_dict : option FilterDict)
                     (shared_ent_path : option string)
| EModelTrain
| ESetTrainable (x : prefetched)
| EPrepareInputs (mode : string)
| EForward
| EGetNegScore (fixed : anchor) (neg_head : bool)
| EReshape (rows : Z)
| ELoss
| EGetRegularization
| EBackward
| EOptimStep
| EOptimClearGrad
| ECreateTrace
| EModelStep (with_trace : bool)
| EPrintLog (step interval : Z)
| EEvaluate (l : loader) (split : string) (filter_dict : option FilterDict)
            (output_path : option string)
| ESave (path : string)
| EFinishAsyncUpdate.

(** A computation that logs calls and may raise. *)
Definition M (A : Type) : Type := (list event * result A)%type.

Definition ret {A} (a : A) : M A := ([], Ok a).

Definition bind {A B} (m : M A) (k : A -> M B) : M B :=
  match m with
  | (t, Ok a) => let (t', r) := k a in (t ++ t', r)
  | (t, Raise e) => (t, Raise e)
  end.

Definition call (e : event) : M unit := ([e], Ok tt).

Definition raise {A} (e : exn) : M A := ([], Raise e).

Definition when (c : bool) (m : M unit) : M unit :=
  if c then m else ret tt.

(** Python's [a % b] on [int]s: floor modulo, an exception on zero. *)
Definition py_mod (a b : Z) : M Z :=
  if b =? 0 then raise ZeroDivisionError else ret (a mod b).

Notation "x <- m ;; k" := (bind m (fun x => k))
  (at level 61, m at next level, right associativity).
Notation "m ;; k" := (bind m (fun _ => k))
  (at level 61, right associativity).

(** What [main] reads from its environment. *)
Record World : Type := {
  args : Args;
  trigraph : TriGraph;
  world_size : Z;                     (* dist.get_world_size() *)
  num_parameters : nat;               (* len(model.parameters()) *)
  model_shared_ent_path : string;     (* model.shared_ent_path *)
  train_loader : nat -> list Batch    (* the batches yielded in each epoch *)
}.

Variable w : World.
Local Notation "'cfg'" := (args w).

(** ** Startup: lines 37-94 *)

Definition use_filter_set : bool :=
  filter_sample cfg || filter_eval cfg || sample_weight cfg.

Definition filter_dict : option FilterDict :=
  if use_filter_set then
    Some {| fd_head := true_heads_for_tail_rel (trigraph w);
            fd_tail := true_tails_for_head_rel (trigraph w) |}
  else None.

Definition select_optimizer : M (option optim_func) :=
  if (0 <? num_parameters w)%nat then
    optim <- (if String.eqb (mlp_optimizer cfg) "Adam" then ret Adam
              else if String.eqb (mlp_optimizer cfg) "Adagrad" then ret Adagrad
              else raise (ValueError ("optimizer " ++ mlp_optimizer cfg
                                        ++ " not supported!")%string));;
    call (ECreateOptimizer optim);;
    ret (Some optim)
  else
    call EWarn;;
    ret None.

Definition startup : M (option optim_func) :=
  call ESetSeed;;
  call ESetLogger;;
  call EReadTrigraph;;
  when (String.eqb (data_name cfg) "wikikg90m") (call ESampledSubgraph);;
  when (1 <? world_size w) (call EInitParallelEnv);;
  call ECreateModel;;
  when (async_update cfg) (call EStartAsyncUpdate);;
  when ((1 <? world_size w) && (0 <? num_parameters w)%nat)
       (call EDataParallel);;
  optimizer <- select_optimizer;;
  call ECreateLossFunction;;
  call (ECreateDataloaders
          (if use_filter_set then filter_dict else None)
          (if mix_cpu_gpu cfg then Some (model_shared_ent_path w) else None));;
  ret optimizer.

(** ** One iteration of the inner loop: lines 103-176 *)

Inductive flow : Type := Next | Break.

(** The filter argument of every [evaluate] call. *)
Definition eval_filter : option FilterDict :=
  if filter_eval cfg then filter_dict else None.

Definition step_path (step : Z) : string :=
  os_path_join (save_path cfg) ("step_" ++ str_of_int step)%string.

(** Lines 103-155: sampling hand-over, forward, loss, backward, optimizer
    step and the dispatch of the embedding update. *)
Definition forward_backward_update (optimizer : option optim_func)
    (b : Batch) : M unit :=
  when (b_has_rel_emb b) (call (ESetTrainable RelEmb));;
  when (b_has_all_ents_emb b) (call (ESetTrainable AllEntsEmb));;
  call (EPrepareInputs (b_mode b));;
  call EForward;;
  (if String.eqb (b_mode b) "head" then call (EGetNegScore TEmb true)
   else if String.eqb (b_mode b) "tail" then call (EGetNegScore HEmb false)
   else raise (ValueError ("unsupported negative mode " ++ b_mode b)%string));;
  call (EReshape (batch_size cfg));;
  call ELoss;;
  when (use_embedding_regularization cfg) (call EGetRegularization);;
  call EBackward;;
  match optimizer with
  | Some _ => call EOptimStep;; call EOptimClearGrad
  | None => ret tt
  end;;
  (if mix_cpu_gpu cfg then call ECreateTrace;; call (EModelStep true)
   else call (EModelStep false)).

(** Lines 157-174: logging, validation, the counter, checkpoint, stop. *)
Definition periodic_actions (step : Z) : M (Z * flow) :=
  m <- py_mod (step + 1) (log_interval cfg);;
  when (m =? 0) (call (EPrintLog step (log_interval cfg)));;
  (if valid cfg then
     m <- py_mod (step + 1) (eval_interval cfg);;
     when (m =? 0) (call (EEvaluate ValidLoader "valid" eval_filter None))
   else ret tt);;
  let step := step + 1 in
  m <- py_mod step (save_interval cfg);;
  when ((m =? 0) || (step >? max_steps cfg)) (call (ESave (step_path step)));;
  if (step >? max_steps cfg) && test cfg then
    call (EEvaluate TestLoader "test" eval_filter None);;
    ret (step, Break)
  else ret (step, Next).

Definition train_step (optimizer : option optim_func) (step : Z) (b : Batch)
  : M (Z * flow) :=
  forward_backward_update optimizer b;;
  periodic_actions step.

(** ** The loops: lines 99-102 *)

(** One pass of the inner loop body, as it happened. *)
Record iteration : Type := {
  it_step : Z;                        (* the counter when the batch is drawn *)
  it_batch : Batch;
  it_events : list event;
  it_result : result (Z * flow)
}.

Inductive epoch_end : Type :=
| Exhausted (step : Z)
| Broke (step : Z)
| Failed (e : exn).

Fixpoint train_epoch (optimizer : option optim_func) (step : Z)
    (batches : list Batch) : list iteration * epoch_end :=
  match batches with
  | [] => ([], Exhausted step)
  | b :: rest =>
      let (evs, r) := train_step optimizer step b in
      let it := {| it_step := step; it_batch := b;
                   it_events := evs; it_result := r |} in
      match r with
      | Ok (step', Next) =>
          let (its, e) := train_epoch optimizer step' rest in (it :: its, e)
      | Ok (step', Break) => ([it], Broke step')
      | Raise e => ([it], Failed e)
      end
  end.

Record epoch_log : Type := {
  ep_index : nat;
  ep_iterations : list iteration;
  ep_end : epoch_end
}.

Fixpoint train_epochs (optimizer : option optim_func) (step : Z)
    (epochs : list nat) : list epoch_log * option exn :=
  match epochs with
  | [] => ([], None)
  | e :: rest =>
      let (its, en) := train_epoch optimizer step (train_loader w e) in
      let ep := {| ep_index := e; ep_iterations := its; ep_end := en |} in
      match en with
      | Exhausted step' | Broke step' =>
          let (eps, r) := train_epochs optimizer step' rest in (ep :: eps, r)
      | Failed x => ([ep], Some x)
      end
  end.

(** [range(args.num_epoch)] *)
Definition epoch_range : list nat := seq 0 (Z.to_nat (num_epoch cfg)).

(** ** Shutdown: lines 178-184 *)

Definition shutdown : list event :=
  (if async_update cfg then [EFinishAsyncUpdate] else []) ++
  (if test cfg then
     [EEvaluate TestLoader "test" eval_filter
        (Some (os_path_join (save_path cfg) "test.pkl"))]
   else []).

(** ** [main] *)

Record run : Type := {
  r_startup : list event;
  r_epochs : list epoch_log;
  r_shutdown : list event;
  r_raised : option exn               (* [None]: [main] returned *)
}.

Definition main : run :=
  match startup with
  | (t0, Raise e) =>
      {| r_startup := t0; r_epochs := []; r_shutdown := [];
         r_raised := Some e |}
  | (t0, Ok optimizer) =>
      match train_epochs optimizer 1 epoch_range with
      | (eps, Some e) =>
          {| r_startup := t0; r_epochs := eps; r_shutdown := [];
             r_raised := Some e |}
      | (eps, None) =>
          {| r_startup := t0; r_epochs := eps; r_shutdown := shutdown;
             r_raised := None |}
      end
  end.

(** ** Views of a run *)

Definition epoch_events (ep : epoch_log) : list event :=
  EModelTrain :: flat_map it_events (ep_iterations ep).

(** Every call of the run, in order. *)
Definition trace (r : run) : list event :=
  r_startup r ++ flat_map epoch_events (r_epochs r) ++ r_shutdown r.

(** Every pass of the inner loop body, in order. *)
Definition iterations (r : run) : list iteration :=
  flat_map ep_iterations (r_epochs r).

End Orchestrator.

Arguments Build_TriGraph {TrueMap}.
Arguments Build_FilterDict {TrueMap}.
Arguments Build_World {TrueMap}.
Arguments ESetSeed {TrueMap}.
Arguments ESetLogger {TrueMap}.
Arguments EReadTrigraph {TrueMap}.
Arguments ESampledSubgraph {TrueMap}.
Arguments EInitParallelEnv {TrueMap}.
Arguments ECreateModel {TrueMap}.
Arguments EStartAsyncUpdate {TrueMap}.
Arguments EDataParallel {TrueMap}.
Arguments ECreateOptimizer {TrueMap} f.
Arguments EWarn {TrueMap}.
Arguments ECreateLossFunction {TrueMap}.
Arguments ECreateDataloaders {TrueMap} filter_dict shared_ent_path.
Arguments EModelTrain {TrueMap}.
Arguments ESetTrainable {TrueMap} x.
Arguments EPrepareInputs {TrueMap} mode.
Arguments EForward {TrueMap}.
Arguments EGetNegScore {TrueMap} fixed neg_head.
Arguments EReshape {TrueMap} rows.
Arguments ELoss {TrueMap}.
Arguments EGetRegularization {TrueMap}.
Arguments EBackward {TrueMap}.
Arguments EOptimStep {TrueMap}.
Arguments EOptimClearGrad {TrueMap}.
Arguments ECreateTrace {TrueMap}.
Arguments EModelStep {TrueMap} with_trace.
Arguments EPrintLog {TrueMap} step interval.
Arguments EEvaluate {TrueMap} l split filter_dict output_path.
Arguments ESave {TrueMap} path.
Arguments EFinishAsyncUpdate {TrueMap}.
Arguments args {TrueMap} w.
Arguments trigraph {TrueMap} w.
Arguments world_size {TrueMap} w.
Arguments num_parameters {TrueMap} w.
Arguments model_shared_ent_path {TrueMap} w.
Arguments train_loader {TrueMap} w.
Arguments true_heads_for_tail_rel {TrueMap} t.
Arguments true_tails_for_head_rel {TrueMap} t.
Arguments fd_head {TrueMap} f.
Arguments fd_tail {TrueMap} f.
Arguments ret {TrueMap A} a.
Arguments bind {TrueMap A B} m k.
Arguments call {TrueMap} e.
Arguments raise {TrueMap A} e.
Arguments when {TrueMap} c m.
Arguments py_mod {TrueMap} a b.
Arguments use_filter_set {TrueMap} w.
Arguments filter_dict {TrueMap} w.
Arguments select_optimizer {TrueMap} w.
Arguments startup {TrueMap} w.
Arguments eval_filter {TrueMap} w.
Arguments step_path {TrueMap} w step.
Arguments forward_backward_update {TrueMap} w optimizer b.
Arguments periodic_actions {TrueMap} w step.
Arguments train_step {TrueMap} w optimizer step b.
Arguments it_step {TrueMap} i.
Arguments it_batch {TrueMap} i.
Arguments it_events {TrueMap} i.
Arguments it_result {TrueMap} i.
Arguments Build_iteration {TrueMap}.
Arguments train_epoch {TrueMap} w optimizer step batches.
Arguments ep_index {TrueMap} e.
Arguments ep_iterations {TrueMap} e.
Arguments ep_end {TrueMap} e.
Arguments Build_epoch_log {TrueMap}.
Arguments train_epochs {TrueMap} w optimizer step epochs.
Arguments epoch_range {TrueMap} w.
Arguments shutdown {TrueMap} w.
Arguments r_startup {TrueMap} r.
Arguments r_epochs {TrueMap} r.
Arguments r_shutdown {TrueMap} r.
Arguments r_raised {TrueMap} r.
Arguments main {TrueMap} w.
Arguments epoch_events {TrueMap} ep.
Arguments trace {TrueMap} r.
Arguments iterations {TrueMap} r.

(** ** The calls of one iteration, phase by phase

    Each list below is what the corresponding lines of the loop body emit
    when they run to their end; the lemmas further down relate them to
    [train_step]. *)

Section Phases.

Context {TrueMap : Type}.
Variable w : World TrueMap.

(** Lines 38-63: everything before the optimizer is selected. *)
Definition startup_prefix : list (event TrueMap) :=
  [ESetSeed; ESetLogger; EReadTrigraph] ++
  (if String.eqb (data_name (args w)) "wikikg90m"
   then [ESampledSubgraph] else []) ++
  (if 1 <? world_size w then [EInitParallelEnv] else []) ++
  [ECreateModel] ++
  (if async_update (args w) then [EStartAsyncUpdate] else []) ++
  (if (1 <? world_size w) && (0 <? num_parameters w)%nat
   then [EDataParallel] else []).

(** Lines 83-94. *)
Definition startup_suffix : list (event TrueMap) :=
  [ECreateLossFunction;
   ECreateDataloaders (filter_dict w)
     (if mix_cpu_gpu (args w) then Some (model_shared_ent_path w) else None)].

(** Lines 106-109. *)
Definition trainable_events (b : Batch) : list (event TrueMap) :=
  (if b_has_rel_emb b then [ESetTrainable RelEmb] else []) ++
  (if b_has_all_ents_emb b then [ESetTrainable AllEntsEmb] else []).

(** Lines 118-123, for a supported mode. *)
Definition neg_score_event (b : Batch) : event TrueMap :=
  if String.eqb (b_mode b) "head" then EGetNegScore TEmb true
  else EGetNegScore HEmb false.

(** Lines 131-136. *)
Definition regularization_events : list (event TrueMap) :=
  if use_embedding_regularization (args w) then [EGetRegularization] else [].

(** Lines 144-146. *)
Definition optimizer_events (optimizer : option optim_func)
  : list (event TrueMap) :=
  match optimizer with
  | Some _ => [EOptimStep; EOptimClearGrad]
  | None => []
  end.

(** Lines 148-153. *)
Definition dispatch_events : list (event TrueMap) :=
  if mix_cpu_gpu (args w) then [ECreateTrace; EModelStep true]
  else [EModelStep false].

(** Lines 157-161. *)
Definition log_events (step : Z) : list (event TrueMap) :=
  if (step + 1) mod log_interval (args w) =? 0
  then [EPrintLog step (log_interval (args w))] else [].

(** Lines 163-165. *)
Definition valid_events (step : Z) : list (event TrueMap) :=
  if valid (args w) && ((step + 1) mod eval_interval (args w) =? 0)
  then [EEvaluate ValidLoader "valid" (eval_filter w) None] else [].

(** Lines 168-170, [step] being the counter before line 167. *)
Definition save_events (step : Z) : list (event TrueMap) :=
  if ((step + 1) mod save_interval (args w) =? 0)
     || (step + 1 >? max_steps (args w))
  then [ESave (step_path w (step + 1))] else [].

(** Lines 171-174. *)
Definition stop_events (step : Z) : list (event TrueMap) :=
  if (step + 1 >? max_steps (args w)) && test (args w)
  then [EEvaluate TestLoader "test" (eval_filter w) None] else [].

Definition stop_flow (step : Z) : flow :=
  if (step + 1 >? max_steps (args w)) && test (args w) then Break else Next.

(** Lines 103-155, for a supported mode. *)
Definition update_events (optimizer : option optim_func) (b : Batch)
  : list (event TrueMap) :=
  trainable_events b ++
  [EPrepareInputs (b_mode b); EForward; neg_score_event b;
   EReshape (batch_size (args w)); ELoss] ++
  regularization_events ++ [EBackward] ++
  optimizer_events optimizer ++ dispatch_events.

(** No [%] of lines 157-168 divides by zero. *)
Definition intervals_nonzero : Prop :=
  log_interval (args w) <> 0 /\
  (valid (args w) = true -> eval_interval (args w) <> 0) /\
  save_interval (args w) <> 0.

Definition supported_mode (b : Batch) : Prop :=
  b_mode b = "head" \/ b_mode b = "tail".

(** The iteration log agrees with [train_step] run on its own inputs. *)
Definition runs_step (optimizer : option optim_func)
    (it : iteration TrueMap) : Prop :=
  (it_events it, it_result it) =
  train_step w optimizer (it_step it) (it_batch it).

(** *** The shape of the logs

    What [train_epoch] and [train_epochs] can return, as relations: the
    counter grows by one per iteration, and an iteration that breaks or
    raises is the last of its epoch. *)

Inductive epoch_shape (optimizer : option optim_func)
  : Z -> list (iteration TrueMap) -> epoch_end -> Prop :=
| shape_exhausted step :
    epoch_shape optimizer step [] (Exhausted step)
| shape_next step it its en :
    runs_step optimizer it -> it_step it = step ->
    it_result it = Ok (step + 1, Next) ->
    epoch_shape optimizer (step + 1) its en ->
    epoch_shape optimizer step (it :: its) en
| shape_break step it :
    runs_step optimizer it -> it_step it = step ->
    it_result it = Ok (step + 1, Break) ->
    epoch_shape optimizer step [it] (Broke (step + 1))
| shape_failed step it e :
    runs_step optimizer it -> it_step it = step ->
    it_result it = Raise e ->
    epoch_shape optimizer step [it] (Failed e).

Definition end_step (en : epoch_end) : option Z :=
  match en with
  | Exhausted step | Broke step => Some step
  | Failed _ => None
  end.

Inductive run_shape (optimizer : option optim_func)
  : Z -> list (epoch_log TrueMap) -> option exn -> Prop :=
| run_done step :
    run_shape optimizer step [] None
| run_epoch step ep step' eps r :
    epoch_shape optimizer step (ep_iterations ep) (ep_end ep) ->
    end_step (ep_end ep) = Some step' ->
    run_shape optimizer step' eps r ->
    run_shape optimizer step (ep :: eps) r
| run_failed step ep e :
    epoch_shape optimizer step (ep_iterations ep) (ep_end ep) ->
    ep_end ep = Failed e ->
    run_shape optimizer step [ep] (Some e).

End Phases.

(** ** Counting calls *)

Definition count {TrueMap} (p : event TrueMap -> bool)
    (l : list (event TrueMap)) : nat :=
  List.length (filter p l).

Definition is_warn {TrueMap} (e : event TrueMap) : bool :=
  match e with EWarn => true | _ => false end.

Definition is_finish {TrueMap} (e : event TrueMap) : bool :=
  match e with EFinishAsyncUpdate => true | _ => false end.

Definition is_save {TrueMap} (e : event TrueMap) : bool :=
  match e with ESave _ => true | _ => false end.

Definition is_valid_evaluate {TrueMap} (e : event TrueMap) : bool :=
  match e with EEvaluate ValidLoader _ _ _ => true | _ => false end.

Definition is_optimizer_call {TrueMap} (e : event TrueMap) : bool :=
  match e with
  | ECreateOptimizer _ | EOptimStep | EOptimClearGrad => true
  | _ => false
  end.

(** The calls of lines 38-94. *)
Definition is_startup_event {TrueMap} (e : event TrueMap) : bool :=
  match e with
  | ESetSeed | ESetLogger | EReadTrigraph | ESampledSubgraph
  | EInitParallelEnv | ECreateModel | EStartAsyncUpdate | EDataParallel
  | ECreateOptimizer _ | EWarn | ECreateLossFunction
  | ECreateDataloaders _ _ => true
  | _ => false
  end.

(** The calls of lines 178-184. *)
Definition is_shutdown_event {TrueMap} (e : event TrueMap) : bool :=
  match e with
  | EFinishAsyncUpdate | EEvaluate TestLoader _ _ (Some _) => true
  | _ => false
  end.

Definition is_test_evaluate {TrueMap} (e : event TrueMap) : bool :=
  match e with EEvaluate TestLoader _ _ _ => true | _ => false end.

(** The calls that can only come from the loop body or from [model.train()];
    [evaluate] with an output path is not one of them. *)
Definition is_loop_event {TrueMap} (e : event TrueMap) : bool :=
  match e with
  | EModelTrain | ESetTrainable _ | EPrepareInputs _ | EForward
  | EGetNegScore _ _ | EReshape _ | ELoss | EGetRegularization | EBackward
  | EOptimStep | EOptimClearGrad | ECreateTrace | EModelStep _
  | EPrintLog _ _ | ESave _ | EEvaluate _ _ _ None => true
  | _ => false
  end.

(** The counter of consecutive iterations, starting from [step]. *)
Fixpoint counted_from {TrueMap} (step : Z) (its : list (iteration TrueMap))
  : Prop :=
  match its with
  | [] => True
  | it :: rest => it_step it = step /\ counted_from (step + 1) rest
  end.

Definition broke {TrueMap} (ep : epoch_log TrueMap) : bool :=
  match ep_end ep with Broke _ => true | _ => false end.

(** The iteration ran to line 167 and left the counter above [max_steps]. *)
Definition exceeded {TrueMap} (w : World TrueMap) (it : iteration TrueMap)
  : bool :=
  match it_result it with
  | Ok (step, _) => step >? max_steps (args w)
  | Raise _ => false
  end.

(** ** Example runs

    Small worlds on which [main] is evaluated further down.  The filter maps
    are association lists from an id pair to the true entities. *)

Definition IdMap : Type := list ((Z * Z) * list Z).

Definition example_graph : TriGraph IdMap :=
  {| true_heads_for_tail_rel := [((0, 1), [2])];
     true_tails_for_head_rel := [((2, 0), [1])] |}.

Definition example_dict : FilterDict IdMap :=
  {| fd_head := [((0, 1), [2])]; fd_tail := [((2, 0), [1])] |}.

Definition head_batch : Batch :=
  {| b_has_all_ents_emb := true; b_has_rel_emb := true; b_mode := "head" |}.

Definition tail_batch : Batch :=
  {| b_has_all_ents_emb := true; b_has_rel_emb := false; b_mode := "tail" |}.

Definition odd_batch : Batch :=
  {| b_has_all_ents_emb := false; b_has_rel_emb := false;
     b_mode := "head-batch" |}.

(** Defaults: one epoch, no filtering, no validation, no test, intervals
    and [max_steps] far away. *)
Definition base_args : Args :=
  {| data_name := "FB15k"; filter_sample := false; filter_eval := false;
     sample_weight := false; async_update := false; mlp_optimizer := "Adam";
     mix_cpu_gpu := false; num_epoch := 1; batch_size := 4;
     use_embedding_regularization := false; log_interval := 1000;
     valid := false; eval_interval := 1000; save_interval := 1000;
     max_steps := 100; test := false; save_path := "output" |}.

Definition example_world (a : Args) (parameters : nat)
    (batches : list Batch) : World IdMap :=
  {| args := a; trigraph := example_graph; world_size := 1;
     num_parameters := parameters; model_shared_ent_path := "ent.npy";
     train_loader := fun _ => batches |}.

(** [max_steps = 1], no test set, three batches. *)
Definition args_no_test : Args :=
  {| data_name := "FB15k"; filter_sample := false; filter_eval := false;
     sample_weight := false; async_update := false; mlp_optimizer := "Adam";
     mix_cpu_gpu := false; num_epoch := 1; batch_size := 4;
     use_embedding_regularization := false; log_interval := 1000;
     valid := false; eval_interval := 1000; save_interval := 10;
     max_steps := 1; test := false; save_path := "output" |}.

Definition world_no_test : World IdMap :=
  example_world args_no_test 1 [head_batch; tail_batch; head_batch].

(** [max_steps = 1], test set enabled, two epochs of two batches. *)
Definition args_two_epochs : Args :=
  {| data_name := "FB15k"; filter_sample := false; filter_eval := false;
     sample_weight := false; async_update := false; mlp_optimizer := "Adam";
     mix_cpu_gpu := false; num_epoch := 2; batch_size := 4;
     use_embedding_regularization := false; log_interval := 1000;
     valid := false; eval_interval := 1000; save_interval := 10;
     max_steps := 1; test := true; save_path := "output" |}.

Definition world_two_epochs : World IdMap :=
  example_world args_two_epochs 1 [head_batch; tail_batch].

(** Asynchronous update, and a second batch with an unknown mode. *)
Definition args_async : Args :=
  {| data_name := "FB15k"; filter_sample := false; filter_eval := false;
     sample_weight := false; async_update := true; mlp_optimizer := "Adam";
     mix_cpu_gpu := true; num_epoch := 1; batch_size := 4;
     use_embedding_regularization := false; log_interval := 1000;
     valid := false; eval_interval := 1000; save_interval := 1000;
     max_steps := 100; test := true; save_path := "output" |}.

Definition world_async_odd : World IdMap :=
  example_world args_async 1 [head_batch; odd_batch; tail_batch].

Definition world_async : World IdMap :=
  example_world args_async 1 [head_batch; tail_batch].

(** An optimizer name that [main] does not know. *)
Definition args_sgd : Args :=
  {| data_name := "FB15k"; filter_sample := false; filter_eval := false;
     sample_weight := false; async_update := true; mlp_optimizer := "SGD";
     mix_cpu_gpu := false; num_epoch := 1; batch_size := 4;
     use_embedding_regularization := false; log_interval := 1000;
     valid := false; eval_interval := 1000; save_interval := 1000;
     max_steps := 100; test := false; save_path := "output" |}.

Definition world_sgd : World IdMap :=
  example_world args_sgd 2 [head_batch].

(** A model without dense parameters. *)
Definition world_no_parameters : World IdMap :=
  example_world base_args 0 [head_batch; tail_batch].

(** Validation at every step, filtering in sampling only. *)
Definition args_filter_sample : Args :=
  {| data_name := "FB15k"; filter_sample := true; filter_eval := false;
     sample_weight := false; async_update := false; mlp_optimizer := "Adam";
     mix_cpu_gpu := false; num_epoch := 1; batch_size := 4;
     use_embedding_regularization := false; log_interval := 1000;
     valid := true; eval_interval := 1; save_interval := 1000;
     max_steps := 100; test := false; save_path := "output" |}.

Definition world_filter_sample : World IdMap :=
  example_world args_filter_sample 1 [head_batch].

(** Validation every other step, filtering in evaluation. *)
Definition args_filter_eval : Args :=
  {| data_name := "FB15k"; filter_sample := false; filter_eval := true;
     sample_weight := false; async_update := false; mlp_optimizer := "Adam";
     mix_cpu_gpu := false; num_epoch := 1; batch_size := 4;
     use_embedding_regularization := false; log_interval := 1000;
     valid := true; eval_interval := 2; save_interval := 3;
     max_steps := 100; test := false; save_path := "output" |}.

Definition world_filter_eval : World IdMap :=
  example_world args_filter_eval 1 [head_batch; tail_batch; head_batch].

(** Sample weights only. *)
Definition args_sample_weight : Args :=
  {| data_name := "FB15k"; filter_sample := false; filter_eval := false;
     sample_weight := true; async_update := false; mlp_optimizer := "Adagrad";
     mix_cpu_gpu := false; num_epoch := 1; batch_size := 4;
     use_embedding_regularization := false; log_interval := 1000;
     valid := false; eval_interval := 1000; save_interval := 1000;
     max_steps := 100; test := false; save_path := "output" |}.

Definition world_sample_weight : World IdMap :=
  example_world args_sample_weight 1 [head_batch].

(** The [k]-th pass of the inner loop body of a run, counted from 0. *)
Definition nth_iteration {TrueMap} (r : run TrueMap) (k : nat)
  : iteration TrueMap :=
  nth k (iterations r)
      {| it_step := 0; it_batch := head_batch; it_events := [];
         it_result := Raise ZeroDivisionError |}.

(** The [k]-th epoch of a run, counted from 0. *)
Definition nth_epoch {TrueMap} (r : run TrueMap) (k : nat)
  : epoch_log TrueMap :=
  nth k (r_epochs r)
      {| ep_index := 0; ep_iterations := []; ep_end := Exhausted 0 |}.

(** Logging every second step. *)
Definition args_logging : Args :=
  {| data_name := "FB15k"; filter_sample := false; filter_eval := false;
     sample_weight := false; async_update := false; mlp_optimizer := "Adam";
     mix_cpu_gpu := false; num_epoch := 1; batch_size := 4;
     use_embedding_regularization := false; log_interval := 2;
     valid := false; eval_interval := 1000; save_interval := 1000;
     max_steps := 100; test := false; save_path := "output" |}.

Definition world_logging : World IdMap :=
  example_world args_logging 1 [head_batch; tail_batch; head_batch].

(** No dense parameters, validation enabled with a zero [eval_interval]. *)
Definition args_zero_eval : Args :=
  {| data_name := "FB15k"; filter_sample := false; filter_eval := false;
     sample_weight := false; async_update := false; mlp_optimizer := "Adam";
     mix_cpu_gpu := false; num_epoch := 1; batch_size := 4;
     use_embedding_regularization := false; log_interval := 1000;
     valid := true; eval_interval := 0; save_interval := 1000;
     max_steps := 100; test := false; save_path := "output" |}.

Definition world_no_parameters_zero_eval : World IdMap :=
  example_world args_zero_eval 0 [head_batch; tail_batch].

(** [max_steps = 0] and a zero [save_interval]. *)
Definition args_zero_save : Args :=
  {| data_name := "FB15k"; filter_sample := false; filter_eval := false;
     sample_weight := false; async_update := false; mlp_optimizer := "Adam";
     mix_cpu_gpu := false; num_epoch := 1; batch_size := 4;
     use_embedding_regularization := false; log_interval := 1000;
     valid := false; eval_interval := 1000; save_interval := 0;
     max_steps := 0; test := false; save_path := "output" |}.

Definition world_zero_save : World IdMap :=
  example_world args_zero_save 1 [head_batch; tail_batch].

(** The paths handed to [model.save], in order. *)
Definition saved_paths {TrueMap} (l : list (event TrueMap)) : list string :=
  flat_map (fun e => match e with ESave p => [p] | _ => [] end) l.

Definition is_model_step {TrueMap} (e : event TrueMap) : bool :=
  match e with EModelStep _ => true | _ => false end.

(** [l1] is an initial segment of [l2]. *)
Definition prefix_of {A} (l1 l2 : list A) : Prop :=
  exists rest, l2 = l1 ++ rest.

(** A zero [log_interval], and one batch. *)
Definition args_zero_log : Args :=
  {| data_name := "FB15k"; filter_sample := false; filter_eval := false;
     sample_weight := false; async_update := false; mlp_optimizer := "Adam";
     mix_cpu_gpu := true; num_epoch := 3; batch_size := 4;
     use_embedding_regularization := true; log_interval := 0;
     valid := false; eval_interval := 0; save_interval := 1;
     max_steps := 100; test := true; save_path := "output" |}.

Definition world_zero_log : World IdMap :=
  example_world args_zero_log 1 [tail_batch; head_batch].

(** Three epochs over an empty training stream, every interval zero. *)
Definition args_all_zero : Args :=
  {| data_name := "wikikg90m"; filter_sample := false; filter_eval := true;
     sample_weight := false; async_update := true; mlp_optimizer := "Adam";
     mix_cpu_gpu := false; num_epoch := 3; batch_size := 4;
     use_embedding_regularization := false; log_interval := 0;
     valid := true; eval_interval := 0; save_interval := 0;
     max_steps := 0; test := true; save_path := "" |}.

Definition world_empty : World IdMap :=
  {| args := args_all_zero; trigraph := example_graph; world_size := 4;
     num_parameters := 3; model_shared_ent_path := "ent.npy";
     train_loader := fun _ => [] |}.

(** ** Lemmas on the monad *)

Section MonadFacts.

Context {TrueMap : Type}.

Lemma fst_bind {A B} (m : M TrueMap A) (k : A -> M TrueMap B) :
  fst (bind m k) =
  fst m ++ match snd m with Ok x => fst (k x) | Raise _ => [] end.
Proof.
  destruct m as [t [x|e]]; simpl.
  - destruct (k x); reflexivity.
  - now rewrite app_nil_r.
Qed.

Lemma snd_bind {A B} (m : M TrueMap A) (k : A -> M TrueMap B) :
  snd (bind m k) =
  match snd m with Ok x => snd (k x) | Raise e => Raise e end.
Proof.
  destruct m as [t [x|e]]; simpl; [destruct (k x)|]; reflexivity.
Qed.

Lemma bind_eq {A B} (m : M TrueMap A) (k : A -> M TrueMap B) :
  bind m k =
  (fst m ++ match snd m with Ok x => fst (k x) | Raise _ => [] end,
   match snd m with Ok x => snd (k x) | Raise e => Raise e end).
Proof.
  rewrite <- fst_bind, <- snd_bind. now destruct (bind m k).
Qed.

End MonadFacts.

Ltac run_monad :=
  unfold when; cbn [bind call ret raise fst snd app andb orb].

Ltac split_ifs :=
  repeat (run_monad;
          match goal with
          | |- context [if ?c then _ else _] => destruct c eqn:?
          | |- context [match ?o with Some _ => _ | None => _ end] =>
              is_var o; destruct o
          end);
  run_monad.

(** ** One iteration *)

Section StepFacts.

Context {TrueMap : Type}.
Variable w : World TrueMap.

Lemma forward_backward_update_unsupported o b :
  b_mode b <> "head" -> b_mode b <> "tail" ->
  forward_backward_update w o b =
  (trainable_events b ++ [EPrepareInputs (b_mode b); EForward],
   Raise (ValueError ("unsupported negative mode " ++ b_mode b)%string)).
Proof.
  intros Hh Ht. apply String.eqb_neq in Hh, Ht.
  unfold forward_backward_update, trainable_events.
  rewrite Hh, Ht. split_ifs; reflexivity.
Qed.

Lemma forward_backward_update_supported o b :
  supported_mode b ->
  forward_backward_update w o b =
  (trainable_events b ++
   [EPrepareInputs (b_mode b); EForward; neg_score_event b;
    EReshape (batch_size (args w)); ELoss] ++
   regularization_events w ++ [EBackward] ++
   optimizer_events o ++ dispatch_events w,
   Ok tt).
Proof.
  unfold supported_mode. intros Hm.
  assert (Hc : String.eqb (b_mode b) "head" = true \/
               (String.eqb (b_mode b) "head" = false /\
                String.eqb (b_mode b) "tail" = true)).
  { destruct (String.eqb (b_mode b) "head") eqn:E; [now left|right].
    split; [reflexivity|]. destruct Hm as [Hm|Hm].
    - apply String.eqb_eq in Hm. congruence.
    - now apply String.eqb_eq. }
  unfold forward_backward_update, trainable_events, neg_score_event,
    regularization_events, optimizer_events, dispatch_events.
  destruct Hc as [Hh|[Hh Ht]]; rewrite ?Hh, ?Ht; split_ifs; reflexivity.
Qed.

Lemma periodic_actions_completes step :
  log_interval (args w) <> 0 ->
  (valid (args w) = true -> eval_interval (args w) <> 0) ->
  save_interval (args w) <> 0 ->
  periodic_actions w step =
  (log_events w step ++ valid_events w step ++ save_events w step
     ++ stop_events w step,
   Ok (step + 1, stop_flow w step)).
Proof.
  intros Hl He Hs. apply Z.eqb_neq in Hl, Hs.
  unfold periodic_actions, py_mod, log_events, valid_events, save_events,
    stop_events, stop_flow.
  rewrite Hl, Hs.
  destruct (valid (args w)) eqn:Hv.
  - specialize (He eq_refl). apply Z.eqb_neq in He. rewrite He.
    split_ifs; reflexivity.
  - split_ifs; reflexivity.
Qed.

(** When an interval is zero the [%] raises; nothing is saved and the test
    set is not evaluated in that iteration. *)
Lemma periodic_actions_raises step :
  log_interval (args w) = 0 \/
  (valid (args w) = true /\ eval_interval (args w) = 0) \/
  save_interval (args w) = 0 ->
  snd (periodic_actions w step) = Raise ZeroDivisionError /\
  incl (fst (periodic_actions w step))
       (log_events w step ++ valid_events w step).
Proof.
  intros H.
  unfold periodic_actions, py_mod, log_events, valid_events.
  destruct (log_interval (args w) =? 0) eqn:Hl.
  { run_monad. split; [reflexivity|]. intros x []. }
  destruct (valid (args w)) eqn:Hv.
  - destruct (eval_interval (args w) =? 0) eqn:He.
    + split_ifs; (split; [reflexivity|]); intros x Hx;
        simpl in *; tauto.
    + destruct (save_interval (args w) =? 0) eqn:Hs.
      * split_ifs; (split; [reflexivity|]); intros x Hx;
          simpl in *; tauto.
      * exfalso. apply Z.eqb_neq in Hl, He, Hs.
        destruct H as [H|[[_ H]|H]]; congruence.
  - destruct (save_interval (args w) =? 0) eqn:Hs.
    + split_ifs; (split; [reflexivity|]); intros x Hx;
        simpl in *; tauto.
    + exfalso. apply Z.eqb_neq in Hl, Hs.
      destruct H as [H|[[H _]|H]]; congruence.
Qed.

Lemma intervals_cases :
  intervals_nonzero w \/
  (log_interval (args w) = 0 \/
   (valid (args w) = true /\ eval_interval (args w) = 0) \/
   save_interval (args w) = 0).
Proof.
  unfold intervals_nonzero.
  destruct (Z.eq_dec (log_interval (args w)) 0); [tauto|].
  destruct (Z.eq_dec (save_interval (args w)) 0); [tauto|].
  destruct (Z.eq_dec (eval_interval (args w)) 0);
    destruct (valid (args w)); intuition congruence.
Qed.

Lemma mode_cases b :
  supported_mode b \/ (b_mode b <> "head" /\ b_mode b <> "tail").
Proof.
  unfold supported_mode.
  destruct (string_dec (b_mode b) "head"); [tauto|].
  destruct (string_dec (b_mode b) "tail"); tauto.
Qed.

Lemma train_step_unsupported o step b :
  b_mode b <> "head" -> b_mode b <> "tail" ->
  train_step w o step b =
  (trainable_events b ++ [EPrepareInputs (b_mode b); EForward],
   Raise (ValueError ("unsupported negative mode " ++ b_mode b)%string)).
Proof.
  intros Hh Ht. unfold train_step.
  rewrite bind_eq, forward_backward_update_unsupported by assumption.
  simpl. now rewrite app_nil_r.
Qed.

Lemma train_step_completes o step b :
  supported_mode b -> intervals_nonzero w ->
  train_step w o step b =
  (update_events w o b ++ log_events w step ++ valid_events w step
     ++ save_events w step ++ stop_events w step,
   Ok (step + 1, stop_flow w step)).
Proof.
  intros Hm (Hl & He & Hs). unfold train_step.
  rewrite bind_eq, forward_backward_update_supported by assumption.
  rewrite periodic_actions_completes by assumption. reflexivity.
Qed.

Lemma train_step_zero_division o step b :
  supported_mode b -> ~ intervals_nonzero w ->
  snd (train_step w o step b) = Raise ZeroDivisionError /\
  incl (fst (train_step w o step b))
       (update_events w o b ++ log_events w step ++ valid_events w step).
Proof.
  intros Hm Hz. unfold train_step.
  rewrite bind_eq, forward_backward_update_supported by assumption.
  destruct intervals_cases as [H|H]; [contradiction|].
  destruct (periodic_actions_raises step H) as [Hr Hi].
  cbn [fst snd]. split; [exact Hr|].
  apply incl_app; [apply incl_appl, incl_refl|apply incl_appr, Hi].
Qed.

(** An iteration that does not raise had a supported mode and non-zero
    intervals, and is described by [train_step_completes]. *)
Lemma train_step_ok_inv o step b x :
  snd (train_step w o step b) = Ok x ->
  supported_mode b /\ intervals_nonzero w.
Proof.
  intros H.
  destruct (mode_cases b) as [Hm|[Hh Ht]].
  - split; [exact Hm|].
    destruct intervals_cases as [Hi|Hz]; [exact Hi|].
    assert (Hn : ~ intervals_nonzero w).
    { unfold intervals_nonzero. intros (Hl & He & Hs).
      destruct Hz as [Hz|[[Hv Hz]|Hz]]; auto. now apply He. }
    destruct (train_step_zero_division o step b Hm Hn) as [Hr _].
    congruence.
  - rewrite train_step_unsupported in H by assumption. discriminate.
Qed.

End StepFacts.

(** ** Which calls an iteration can make *)

Ltac unfold_events :=
  unfold update_events, trainable_events, neg_score_event,
    regularization_events, optimizer_events, dispatch_events,
    log_events, valid_events, save_events, stop_events.

(** Solves [Forall P l] for [l] built from the phase lists. *)
Ltac forall_events :=
  unfold_events;
  repeat match goal with
         | |- context [if ?c then _ else _] => destruct c
         | |- context [match ?o with Some _ => _ | None => _ end] =>
             is_var o; destruct o
         end;
  cbn [app]; repeat constructor.

Section EventFacts.

Context {TrueMap : Type}.
Variable w : World TrueMap.

Lemma count_app (p : event TrueMap -> bool) l1 l2 :
  count p (l1 ++ l2) = (count p l1 + count p l2)%nat.
Proof. unfold count. now rewrite filter_app, length_app. Qed.

Lemma count_none (p : event TrueMap -> bool) l :
  Forall (fun e => p e = false) l -> count p l = 0%nat.
Proof.
  unfold count. induction 1 as [|e l He _ IH]; simpl; [reflexivity|].
  now rewrite He.
Qed.

Lemma count_none_in (p : event TrueMap -> bool) l e :
  count p l = 0%nat -> In e l -> p e = false.
Proof.
  unfold count. induction l as [|x l IH]; simpl; [tauto|].
  destruct (p x) eqn:E; simpl; [discriminate|].
  intros H [->|Hin]; auto.
Qed.

Lemma train_step_events_incl o step b :
  incl (fst (train_step w o step b))
       (update_events w o b ++ log_events w step ++ valid_events w step
          ++ save_events w step ++ stop_events w step).
Proof.
  destruct (mode_cases b) as [Hm|[Hh Ht]].
  - destruct (intervals_cases w) as [Hi|Hz].
    + rewrite train_step_completes by assumption. apply incl_refl.
    + assert (Hn : ~ intervals_nonzero w).
      { unfold intervals_nonzero. intros (Hl & He & Hs).
        destruct Hz as [Hz|[[Hv Hz]|Hz]]; auto. now apply He. }
      destruct (train_step_zero_division w o step b Hm Hn) as [_ Hi].
      intros e He. apply Hi in He. rewrite !in_app_iff in *. tauto.
  - rewrite train_step_unsupported by assumption. cbn [fst].
    apply incl_appl. unfold update_events.
    intros e He. rewrite !in_app_iff in *. simpl in *. tauto.
Qed.

(** An iteration that raises stops before line 167. *)
Lemma train_step_raise_events o step b e :
  snd (train_step w o step b) = Raise e ->
  incl (fst (train_step w o step b))
       (update_events w o b ++ log_events w step ++ valid_events w step).
Proof.
  intros H. destruct (mode_cases b) as [Hm|[Hh Ht]].
  - destruct (intervals_cases w) as [Hi|Hz].
    + rewrite train_step_completes in H by assumption. discriminate.
    + assert (Hn : ~ intervals_nonzero w).
      { unfold intervals_nonzero. intros (Hl & He & Hs).
        destruct Hz as [Hz|[[Hv Hz]|Hz]]; auto. now apply He. }
      now destruct (train_step_zero_division w o step b Hm Hn).
  - rewrite train_step_unsupported by assumption. cbn [fst].
    apply incl_appl. unfold update_events.
    intros x Hx. rewrite !in_app_iff in *. simpl in *. tauto.
Qed.

Lemma train_step_loop_events o step b :
  Forall (fun e => is_loop_event e = true) (fst (train_step w o step b)).
Proof.
  eapply incl_Forall; [apply train_step_events_incl|].
  repeat (apply Forall_app; split); forall_events.
Qed.

(** The in-loop evaluation of the test set happens exactly when the
    iteration breaks. *)
Lemma train_step_count_test o step b :
  count is_test_evaluate (fst (train_step w o step b)) =
  match snd (train_step w o step b) with
  | Ok (_, Break) => 1%nat
  | _ => 0%nat
  end.
Proof.
  destruct (snd (train_step w o step b)) as [[n f]|e] eqn:E.
  - destruct (train_step_ok_inv w o step b _ E) as [Hm Hi].
    rewrite train_step_completes in * by assumption.
    cbn [fst snd] in *. injection E as _ <-.
    rewrite !count_app.
    rewrite (count_none _ (update_events w o b)) by forall_events.
    rewrite (count_none _ (log_events w step)) by forall_events.
    rewrite (count_none _ (valid_events w step)) by forall_events.
    rewrite (count_none _ (save_events w step)) by forall_events.
    unfold stop_events, stop_flow.
    destruct ((step + 1 >? max_steps (args w)) && test (args w));
      reflexivity.
  - apply count_none. eapply incl_Forall.
    + eapply train_step_raise_events, E.
    + repeat (apply Forall_app; split); forall_events.
Qed.

End EventFacts.

(** ** The loops *)

Section LoopFacts.

Context {TrueMap : Type}.
Variable w : World TrueMap.

Lemma train_step_counter o step b n f :
  snd (train_step w o step b) = Ok (n, f) -> n = step + 1.
Proof.
  intros H. destruct (train_step_ok_inv w o step b _ H) as [Hm Hi].
  rewrite train_step_completes in H by assumption. simpl in H. congruence.
Qed.

Lemma train_epoch_shape o bs : forall step,
  epoch_shape w o step (fst (train_epoch w o step bs))
                       (snd (train_epoch w o step bs)).
Proof.
  induction bs as [|b rest IH]; intros step; simpl.
  - constructor.
  - destruct (train_step w o step b) as [evs r] eqn:E.
    assert (Hr : runs_step w o {| it_step := step; it_batch := b;
                                  it_events := evs; it_result := r |})
      by (unfold runs_step; simpl; now rewrite E).
    destruct r as [[n f]|e].
    + assert (n = step + 1)
        by (apply (train_step_counter o step b n f); now rewrite E).
      subst n. destruct f.
      * specialize (IH (step + 1)).
        destruct (train_epoch w o (step + 1) rest) as [its en]. simpl in *.
        now apply shape_next.
      * now apply shape_break.
    + now apply shape_failed.
Qed.

Lemma train_epochs_shape o es : forall step,
  run_shape w o step (fst (train_epochs w o step es))
                     (snd (train_epochs w o step es)).
Proof.
  induction es as [|e rest IH]; intros step; simpl.
  - constructor.
  - pose proof (train_epoch_shape o (train_loader w e) step) as Hs.
    destruct (train_epoch w o step (train_loader w e)) as [its en].
    simpl in Hs.
    destruct en as [n|n|x].
    + specialize (IH n). destruct (train_epochs w o n rest) as [eps r].
      simpl in *. now apply run_epoch with (step' := n).
    + specialize (IH n). destruct (train_epochs w o n rest) as [eps r].
      simpl in *. now apply run_epoch with (step' := n).
    + now apply run_failed with (e := x).
Qed.

End LoopFacts.

(** ** Consequences of the shapes *)

Section ShapeFacts.

Context {TrueMap : Type}.
Variable w : World TrueMap.
Variable o : option optim_func.

Lemma epoch_shape_runs step its en :
  epoch_shape w o step its en -> Forall (runs_step w o) its.
Proof. induction 1; repeat constructor; assumption. Qed.

Lemma epoch_shape_counted step its en :
  epoch_shape w o step its en -> counted_from step its.
Proof. induction 1; simpl; auto. Qed.

Lemma epoch_shape_end_step step its en n :
  epoch_shape w o step its en -> end_step en = Some n ->
  n = step + Z.of_nat (List.length its).
Proof.
  induction 1; simpl; intros E.
  - injection E as <-. lia.
  - rewrite (IHepoch_shape E). lia.
  - injection E as <-. lia.
  - discriminate.
Qed.

(** An iteration that breaks or raises ends its epoch. *)
Lemma epoch_shape_last step its en :
  epoch_shape w o step its en ->
  forall l1 it l2, its = l1 ++ it :: l2 ->
  (forall e, it_result it = Raise e -> l2 = [] /\ en = Failed e) /\
  (forall n, it_result it = Ok (n, Break) -> l2 = [] /\ en = Broke n).
Proof.
  induction 1 as [s|s it0 its en Hr Hs Hres _ IH|s it0 Hr Hs Hres
                 |s it0 e0 Hr Hs Hres]; intros l1 it l2 E.
  - destruct l1; discriminate.
  - destruct l1 as [|x l1]; injection E as E1 E2.
    + subst it0. split; intros ? H; congruence.
    + eapply IH; eassumption.
  - destruct l1 as [|x l1]; injection E as E1 E2.
    + subst it0 l2. split; intros ? H; [congruence|].
      split; [reflexivity|congruence].
    + destruct l1; discriminate.
  - destruct l1 as [|x l1]; injection E as E1 E2.
    + subst it0 l2. split; intros ? H; [|congruence].
      split; [reflexivity|congruence].
    + destruct l1; discriminate.
Qed.

Lemma epoch_shape_broke step its en n :
  epoch_shape w o step its en -> en = Broke n ->
  exists l1 it, its = l1 ++ [it] /\ it_result it = Ok (n, Break).
Proof.
  induction 1 as [s|s it0 its en Hr Hs Hres _ IH|s it0 Hr Hs Hres
                 |s it0 e0 Hr Hs Hres]; intros E; try discriminate.
  - destruct (IH E) as (l1 & it & -> & Hit).
    exists (it0 :: l1), it. now split.
  - injection E as <-. exists [], it0. now split.
Qed.

Lemma epoch_shape_ok step its en :
  epoch_shape w o step its en -> (forall e, en <> Failed e) ->
  Forall (fun it => exists x, it_result it = Ok x) its.
Proof.
  induction 1; intros Hn; repeat constructor; eauto.
  now contradiction (Hn e).
Qed.

Lemma runs_step_events it :
  runs_step w o it ->
  it_events it = fst (train_step w o (it_step it) (it_batch it)) /\
  it_result it = snd (train_step w o (it_step it) (it_batch it)).
Proof. unfold runs_step. intros <-. now split. Qed.

Lemma epoch_shape_count_test step its en :
  epoch_shape w o step its en ->
  count is_test_evaluate (flat_map it_events its) =
  match en with Broke _ => 1%nat | _ => 0%nat end.
Proof.
  induction 1 as [s|s it0 its en Hr Hs Hres _ IH|s it0 Hr Hs Hres
                 |s it0 e0 Hr Hs Hres]; simpl;
    try reflexivity;
    destruct (runs_step_events _ Hr) as [He Hx];
    rewrite ?app_nil_r, ?count_app, He, train_step_count_test, <- Hx, Hres;
    auto.
Qed.

Lemma epoch_shape_loop_events step its en :
  epoch_shape w o step its en ->
  Forall (fun e => is_loop_event e = true) (flat_map it_events its).
Proof.
  intros H. apply epoch_shape_runs in H.
  induction H as [|it its Hr _ IH]; simpl; [constructor|].
  apply Forall_app. split; [|exact IH].
  destruct (runs_step_events _ Hr) as [-> _]. apply train_step_loop_events.
Qed.

Lemma run_shape_runs step eps r :
  run_shape w o step eps r ->
  Forall (runs_step w o) (flat_map ep_iterations eps).
Proof.
  induction 1; simpl; rewrite ?app_nil_r; [constructor| |];
    try (apply Forall_app; split; [|assumption]);
    eapply epoch_shape_runs; eassumption.
Qed.

Lemma counted_from_app step (l1 l2 : list (iteration TrueMap)) :
  counted_from step (l1 ++ l2) <->
  counted_from step l1 /\
  counted_from (step + Z.of_nat (List.length l1)) l2.
Proof.
  revert step. induction l1 as [|x l1 IH]; intros step; simpl.
  - replace (step + 0) with step by lia. tauto.
  - rewrite IH.
    replace (step + 1 + Z.of_nat (List.length l1))
      with (step + Z.pos (Pos.of_succ_nat (List.length l1))) by lia.
    tauto.
Qed.

Lemma run_shape_counted step eps r :
  run_shape w o step eps r ->
  counted_from step (flat_map ep_iterations eps).
Proof.
  induction 1 as [s|s ep s' eps r Hep Hend _ IH|s ep e Hep Hend]; simpl.
  - exact I.
  - apply counted_from_app. split.
    + eapply epoch_shape_counted; eassumption.
    + now rewrite <- (epoch_shape_end_step _ _ _ _ Hep Hend).
  - rewrite app_nil_r. eapply epoch_shape_counted; eassumption.
Qed.

(** An epoch that fails is the last one, and the run raises. *)
Lemma run_shape_failed_last step eps r :
  run_shape w o step eps r ->
  forall l1 ep l2 e, eps = l1 ++ ep :: l2 -> ep_end ep = Failed e ->
  l2 = [] /\ r = Some e.
Proof.
  induction 1 as [s|s ep0 s' eps r Hep Hend _ IH|s ep0 e0 Hep Hend];
    intros l1 ep l2 e E He.
  - destruct l1; discriminate.
  - destruct l1 as [|x l1]; injection E as E1 E2.
    + subst ep0. rewrite He in Hend. discriminate.
    + eapply IH; eassumption.
  - destruct l1 as [|x l1]; injection E as E1 E2.
    + subst ep0 l2. split; [reflexivity|congruence].
    + destruct l1; discriminate.
Qed.

Lemma run_shape_returned step eps :
  run_shape w o step eps None ->
  Forall (fun ep => forall e, ep_end ep <> Failed e) eps.
Proof.
  remember None as r eqn:Er. induction 1 as [| s ep s' eps r Hep Hend _ IH|];
    [constructor| |discriminate].
  constructor; [|auto].
  intros e He. rewrite He in Hend. discriminate.
Qed.

Lemma run_shape_epochs step eps r :
  run_shape w o step eps r ->
  Forall (fun ep => exists s, epoch_shape w o s (ep_iterations ep) (ep_end ep))
         eps.
Proof. induction 1; repeat constructor; eauto. Qed.

Lemma run_shape_count_test step eps r :
  run_shape w o step eps r ->
  count is_test_evaluate (flat_map epoch_events eps) =
  List.length (filter broke eps).
Proof.
  induction 1 as [s|s ep s' eps r Hep Hend _ IH|s ep e Hep Hend]; simpl.
  - reflexivity.
  - change (EModelTrain :: flat_map it_events (ep_iterations ep) ++
              flat_map epoch_events eps)
      with ([EModelTrain] ++ flat_map it_events (ep_iterations ep) ++
              flat_map epoch_events eps).
    rewrite !count_app, IH, (epoch_shape_count_test _ _ _ Hep).
    unfold broke. destruct (ep_end ep); reflexivity.
  - rewrite app_nil_r.
    change (count is_test_evaluate
              ([EModelTrain] ++ flat_map it_events (ep_iterations ep))
            = List.length (if broke ep then [ep] else [])).
    rewrite count_app, (epoch_shape_count_test _ _ _ Hep).
    unfold broke. rewrite Hend. reflexivity.
Qed.

Lemma run_shape_loop_events step eps r :
  run_shape w o step eps r ->
  Forall (fun e => is_loop_event e = true) (flat_map epoch_events eps).
Proof.
  intros H. apply run_shape_epochs in H.
  induction H as [|ep eps [s Hs] _ IH]; simpl; [constructor|].
  constructor; [reflexivity|].
  apply Forall_app. split; [|exact IH].
  eapply epoch_shape_loop_events; eassumption.
Qed.

End ShapeFacts.

(** ** [main] as a whole *)

Section RunFacts.

Context {TrueMap : Type}.
Variable w : World TrueMap.

Lemma select_optimizer_cases :
  (num_parameters w = 0%nat /\
   select_optimizer w = ([EWarn], Ok None)) \/
  ((0 < num_parameters w)%nat /\ mlp_optimizer (args w) = "Adam" /\
   select_optimizer w = ([ECreateOptimizer Adam], Ok (Some Adam))) \/
  ((0 < num_parameters w)%nat /\ mlp_optimizer (args w) = "Adagrad" /\
   select_optimizer w = ([ECreateOptimizer Adagrad], Ok (Some Adagrad))) \/
  ((0 < num_parameters w)%nat /\ mlp_optimizer (args w) <> "Adam" /\
   mlp_optimizer (args w) <> "Adagrad" /\
   select_optimizer w =
   ([], Raise (ValueError ("optimizer " ++ mlp_optimizer (args w)
                             ++ " not supported!")%string))).
Proof.
  unfold select_optimizer.
  destruct (0 <? num_parameters w)%nat eqn:Hn.
  - apply Nat.ltb_lt in Hn. right.
    destruct (String.eqb (mlp_optimizer (args w)) "Adam") eqn:Ha.
    + apply String.eqb_eq in Ha. left. now repeat split.
    + apply String.eqb_neq in Ha. right.
      destruct (String.eqb (mlp_optimizer (args w)) "Adagrad") eqn:Hg.
      * apply String.eqb_eq in Hg. left. now repeat split.
      * apply String.eqb_neq in Hg. right. now repeat split.
  - apply Nat.ltb_ge in Hn. left. split; [lia|reflexivity].
Qed.

Lemma filter_dict_idem :
  (if use_filter_set w then filter_dict w else None) = filter_dict w.
Proof. unfold filter_dict. now destruct (use_filter_set w). Qed.

Lemma startup_eq :
  startup w =
  (startup_prefix w ++ fst (select_optimizer w) ++
   match snd (select_optimizer w) with
   | Ok _ => startup_suffix w
   | Raise _ => []
   end,
   snd (select_optimizer w)).
Proof.
  unfold startup, startup_prefix, startup_suffix.
  rewrite filter_dict_idem.
  destruct (select_optimizer w) as [t [x|e]];
    destruct (String.eqb (data_name (args w)) "wikikg90m"),
             (1 <? world_size w), (async_update (args w)),
             (0 <? num_parameters w)%nat;
    run_monad; rewrite ?app_nil_r; reflexivity.
Qed.

Lemma main_raised_at_startup e :
  snd (startup w) = Raise e ->
  main w = {| r_startup := fst (startup w); r_epochs := [];
              r_shutdown := []; r_raised := Some e |}.
Proof.
  unfold main. destruct (startup w) as [t [x|e']]; simpl; congruence.
Qed.

Lemma main_trained o :
  snd (startup w) = Ok o ->
  r_startup (main w) = fst (startup w) /\
  run_shape w o 1 (r_epochs (main w)) (r_raised (main w)) /\
  r_shutdown (main w) =
  match r_raised (main w) with None => shutdown w | Some _ => [] end.
Proof.
  unfold main. destruct (startup w) as [t [x|e']]; simpl; [|discriminate].
  intros [= ->].
  pose proof (train_epochs_shape w o (epoch_range w) 1) as Hs.
  destruct (train_epochs w o 1 (epoch_range w)) as [eps [e|]]; simpl in *;
    auto.
Qed.

(** Every iteration of a run executed [train_step] with the optimizer that
    the startup selected. *)
Lemma main_iterations it :
  In it (iterations (main w)) ->
  exists o, snd (select_optimizer w) = Ok o /\ runs_step w o it.
Proof.
  intros Hin. pose proof startup_eq as Hs.
  destruct (snd (select_optimizer w)) as [o|e] eqn:Ho.
  - exists o. split; [reflexivity|].
    assert (Hsnd : snd (startup w) = Ok o) by now rewrite Hs.
    destruct (main_trained o Hsnd) as (_ & Hshape & _).
    apply run_shape_runs in Hshape.
    rewrite Forall_forall in Hshape. now apply Hshape.
  - assert (Hsnd : snd (startup w) = Raise e) by now rewrite Hs.
    rewrite (main_raised_at_startup e Hsnd) in Hin. destruct Hin.
Qed.

Lemma main_counted : counted_from 1 (iterations (main w)).
Proof.
  pose proof startup_eq as Hs.
  destruct (snd (select_optimizer w)) as [o|e] eqn:Ho.
  - assert (Hsnd : snd (startup w) = Ok o) by now rewrite Hs.
    destruct (main_trained o Hsnd) as (_ & Hshape & _).
    eapply run_shape_counted, Hshape.
  - assert (Hsnd : snd (startup w) = Raise e) by now rewrite Hs.
    rewrite (main_raised_at_startup e Hsnd). exact I.
Qed.

End RunFacts.

(** ** The three parts of the trace *)

Section TraceFacts.

Context {TrueMap : Type}.
Variable w : World TrueMap.

Lemma main_epoch_shape ep :
  In ep (r_epochs (main w)) ->
  exists o step,
    snd (select_optimizer w) = Ok o /\
    run_shape w o 1 (r_epochs (main w)) (r_raised (main w)) /\
    epoch_shape w o step (ep_iterations ep) (ep_end ep).
Proof.
  intros Hin. pose proof (startup_eq w) as Hs.
  destruct (snd (select_optimizer w)) as [o|e] eqn:Ho.
  - assert (Hsnd : snd (startup w) = Ok o) by now rewrite Hs.
    destruct (main_trained w o Hsnd) as (_ & Hshape & _).
    pose proof (run_shape_epochs _ _ _ _ _ Hshape) as Hall.
    rewrite Forall_forall in Hall. destruct (Hall ep Hin) as [step Hep].
    exists o, step. auto.
  - assert (Hsnd : snd (startup w) = Raise e) by now rewrite Hs.
    rewrite (main_raised_at_startup w e Hsnd) in Hin. destruct Hin.
Qed.

Lemma main_shutdown :
  r_shutdown (main w) =
  match r_raised (main w) with None => shutdown w | Some _ => [] end.
Proof.
  pose proof (startup_eq w) as Hs.
  destruct (snd (select_optimizer w)) as [o|e] eqn:Ho.
  - assert (Hsnd : snd (startup w) = Ok o) by now rewrite Hs.
    now destruct (main_trained w o Hsnd) as (_ & _ & H).
  - assert (Hsnd : snd (startup w) = Raise e) by now rewrite Hs.
    now rewrite (main_raised_at_startup w e Hsnd).
Qed.

Lemma run_shape_events_forall (P : event TrueMap -> Prop) o step eps r :
  run_shape w o step eps r ->
  P EModelTrain ->
  (forall s b, Forall P (fst (train_step w o s b))) ->
  Forall P (flat_map epoch_events eps).
Proof.
  intros H Ht Hs. apply run_shape_epochs in H.
  induction H as [|ep eps [s Hep] _ IH]; simpl; [constructor|].
  constructor; [exact Ht|].
  apply Forall_app. split; [|exact IH].
  apply epoch_shape_runs in Hep.
  induction Hep as [|it its Hr _ IH']; simpl; [constructor|].
  apply Forall_app. split; [|exact IH'].
  destruct (runs_step_events _ _ _ Hr) as [-> _]. apply Hs.
Qed.

Lemma main_loop_events_forall (P : event TrueMap -> Prop) :
  P EModelTrain ->
  (forall o s b, snd (select_optimizer w) = Ok o ->
                 Forall P (fst (train_step w o s b))) ->
  Forall P (flat_map epoch_events (r_epochs (main w))).
Proof.
  intros Ht Hs. pose proof (startup_eq w) as Hst.
  destruct (snd (select_optimizer w)) as [o|e] eqn:Ho.
  - assert (Hsnd : snd (startup w) = Ok o) by now rewrite Hst.
    destruct (main_trained w o Hsnd) as (_ & Hshape & _).
    eapply run_shape_events_forall; eauto.
  - assert (Hsnd : snd (startup w) = Raise e) by now rewrite Hst.
    rewrite (main_raised_at_startup w e Hsnd). constructor.
Qed.

Lemma main_loop_events :
  Forall (fun e => is_loop_event e = true)
         (flat_map epoch_events (r_epochs (main w))).
Proof.
  apply main_loop_events_forall; [reflexivity|].
  intros. apply train_step_loop_events.
Qed.

Lemma main_startup : r_startup (main w) = fst (startup w).
Proof.
  destruct (snd (startup w)) as [o|e] eqn:Hs.
  - now destruct (main_trained w o Hs).
  - now rewrite (main_raised_at_startup w e Hs).
Qed.

Lemma startup_prefix_events :
  Forall (fun e => is_startup_event e = true /\ is_warn e = false /\
                   is_optimizer_call e = false /\
                   forall fd sp, e <> ECreateDataloaders fd sp)
         (startup_prefix w).
Proof.
  unfold startup_prefix.
  destruct (String.eqb (data_name (args w)) "wikikg90m"),
           (1 <? world_size w), (async_update (args w)),
           (0 <? num_parameters w)%nat;
    cbn [app andb]; repeat constructor; discriminate.
Qed.

Lemma main_startup_events :
  Forall (fun e => is_startup_event e = true) (r_startup (main w)).
Proof.
  rewrite main_startup, startup_eq. cbn [fst].
  apply Forall_app. split.
  - eapply Forall_impl; [|apply startup_prefix_events]. simpl. tauto.
  - destruct (select_optimizer_cases w)
      as [[_ ->]|[(_ & _ & ->)|[(_ & _ & ->)|(_ & _ & _ & ->)]]];
      cbn; repeat constructor.
Qed.

Lemma shutdown_events :
  Forall (fun e => is_shutdown_event e = true) (r_shutdown (main w)).
Proof.
  rewrite main_shutdown. destruct (r_raised (main w)); [constructor|].
  unfold shutdown.
  destruct (async_update (args w)), (test (args w));
    cbn; repeat constructor.
Qed.

Lemma count_class (p q : event TrueMap -> bool) l :
  Forall (fun e => q e = true) l ->
  (forall e, q e = true -> p e = false) ->
  count p l = 0%nat.
Proof.
  intros H Hpq. apply count_none.
  eapply Forall_impl; [|exact H]. simpl. auto.
Qed.

Lemma count_trace (p : event TrueMap -> bool) (r : run TrueMap) :
  count p (trace r) =
  (count p (r_startup r) + count p (flat_map epoch_events (r_epochs r))
   + count p (r_shutdown r))%nat.
Proof.
  unfold trace.
  rewrite (count_app p (r_startup r)),
    (count_app p (flat_map epoch_events (r_epochs r))).
  lia.
Qed.

Lemma not_in_class (q : event TrueMap -> bool) l e :
  Forall (fun e => q e = true) l -> q e = false -> ~ In e l.
Proof.
  intros H Hq Hin. rewrite Forall_forall in H.
  specialize (H e Hin). congruence.
Qed.

Lemma train_step_result_optimizer o o' step b :
  snd (train_step w o step b) = snd (train_step w o' step b).
Proof.
  destruct (mode_cases b) as [Hm|[Hh Ht]].
  - unfold train_step.
    rewrite !snd_bind, !forward_backward_update_supported by assumption.
    reflexivity.
  - now rewrite !train_step_unsupported.
Qed.

Lemma train_step_supported_events o step b :
  supported_mode b ->
  fst (train_step w o step b) =
  update_events w o b ++ fst (periodic_actions w step).
Proof.
  intros Hm. unfold train_step.
  now rewrite fst_bind, forward_backward_update_supported.
Qed.

Lemma not_in_none (q : event TrueMap -> bool) l e :
  Forall (fun e => q e = false) l -> q e = true -> ~ In e l.
Proof.
  intros H Hq Hin. rewrite Forall_forall in H.
  specialize (H e Hin). congruence.
Qed.

(** An iteration of the run that does not raise, in full. *)
Lemma iteration_completes it n f :
  In it (iterations (main w)) -> it_result it = Ok (n, f) ->
  n = it_step it + 1 /\ f = stop_flow w (it_step it) /\
  intervals_nonzero w /\
  exists o,
    snd (select_optimizer w) = Ok o /\
    it_events it =
      update_events w o (it_batch it) ++ log_events w (it_step it) ++
      valid_events w (it_step it) ++ save_events w (it_step it) ++
      stop_events w (it_step it).
Proof.
  intros Hin Hres.
  destruct (main_iterations w it Hin) as (o & Ho & Hr).
  destruct (runs_step_events _ _ _ Hr) as [Hev Hx].
  rewrite Hres in Hx. symmetry in Hx.
  destruct (train_step_ok_inv w o _ _ _ Hx) as [Hm Hi].
  rewrite train_step_completes in Hev, Hx by assumption.
  cbn [fst snd] in Hev, Hx. injection Hx as <- <-.
  repeat split; try assumption; try apply Hi. now exists o.
Qed.

Lemma in_save_events o b step p :
  In (ESave p)
     (update_events w o b ++ log_events w step ++ valid_events w step ++
      save_events w step ++ stop_events w step) <->
  p = step_path w (step + 1) /\
  ((step + 1) mod save_interval (args w) = 0 \/
   max_steps (args w) < step + 1).
Proof.
  rewrite !in_app_iff.
  assert (H1 : ~ In (ESave p) (update_events w o b))
    by (apply (not_in_none is_save); [forall_events|reflexivity]).
  assert (H2 : ~ In (ESave p) (log_events w step))
    by (apply (not_in_none is_save); [forall_events|reflexivity]).
  assert (H3 : ~ In (ESave p) (valid_events w step))
    by (apply (not_in_none is_save); [forall_events|reflexivity]).
  assert (H4 : ~ In (ESave p) (stop_events w step))
    by (apply (not_in_none is_save); [forall_events|reflexivity]).
  assert (H5 : In (ESave p) (save_events w step) <->
               p = step_path w (step + 1) /\
               ((step + 1) mod save_interval (args w) = 0 \/
                max_steps (args w) < step + 1)).
  { unfold save_events.
    destruct (((step + 1) mod save_interval (args w) =? 0)
              || (step + 1 >? max_steps (args w))) eqn:E.
    - apply orb_true_iff in E. rewrite Z.eqb_eq, Z.gtb_lt in E.
      simpl. split.
      + intros [[= <-]|[]]. now split.
      + intros [-> _]. now left.
    - apply orb_false_iff in E. destruct E as [E1 E2].
      apply Z.eqb_neq in E1. rewrite Z.gtb_ltb in E2.
      apply Z.ltb_ge in E2.
      simpl. split; [tauto|]. intros [_ [H|H]]; [contradiction|lia]. }
  tauto.
Qed.

Lemma in_valid_events o b step sp fd out :
  In (EEvaluate ValidLoader sp fd out)
     (update_events w o b ++ log_events w step ++ valid_events w step ++
      save_events w step ++ stop_events w step) <->
  valid (args w) = true /\
  (step + 1) mod eval_interval (args w) = 0 /\
  sp = "valid" /\ fd = eval_filter w /\ out = None.
Proof.
  rewrite !in_app_iff.
  assert (H1 : ~ In (EEvaluate ValidLoader sp fd out) (update_events w o b))
    by (apply (not_in_none is_valid_evaluate); [forall_events|reflexivity]).
  assert (H2 : ~ In (EEvaluate ValidLoader sp fd out) (log_events w step))
    by (apply (not_in_none is_valid_evaluate); [forall_events|reflexivity]).
  assert (H3 : ~ In (EEvaluate ValidLoader sp fd out) (save_events w step))
    by (apply (not_in_none is_valid_evaluate); [forall_events|reflexivity]).
  assert (H4 : ~ In (EEvaluate ValidLoader sp fd out) (stop_events w step))
    by (apply (not_in_none is_valid_evaluate); [forall_events|reflexivity]).
  assert (H5 : In (EEvaluate ValidLoader sp fd out) (valid_events w step) <->
               valid (args w) = true /\
               (step + 1) mod eval_interval (args w) = 0 /\
               sp = "valid" /\ fd = eval_filter w /\ out = None).
  { unfold valid_events.
    destruct (valid (args w) &&
              ((step + 1) mod eval_interval (args w) =? 0)) eqn:E.
    - apply andb_true_iff in E. rewrite Z.eqb_eq in E. destruct E as [Ev Em].
      simpl. split.
      + intros [[= <- <- <-]|[]]. now repeat split.
      + intros (_ & _ & -> & -> & ->). now left.
    - apply andb_false_iff in E. rewrite Z.eqb_neq in E.
      simpl. split; [tauto|]. intros (Hv & Hm & _).
      destruct E as [E|E]; congruence. }
  tauto.
Qed.

Lemma counted_from_ge step (l : list (iteration TrueMap)) x :
  counted_from step l -> In x l -> step <= it_step x.
Proof.
  revert step. induction l as [|y l IH]; intros step; simpl; [tauto|].
  intros [Hy Hl] [->|Hin]; [lia|].
  specialize (IH _ Hl Hin). lia.
Qed.

Lemma counted_from_later step (l1 l2 : list (iteration TrueMap)) x y :
  counted_from step (l1 ++ x :: l2) -> In y (x :: l2) ->
  it_step x <= it_step y.
Proof.
  intros H Hin. apply counted_from_app in H. destruct H as [_ H].
  pose proof (counted_from_ge _ _ y H Hin) as Hy.
  simpl in H. destruct H as [Hx _]. lia.
Qed.

Lemma filter_eval_dict :
  filter_eval (args w) = true ->
  filter_dict w =
  Some {| fd_head := true_heads_for_tail_rel (trigraph w);
          fd_tail := true_tails_for_head_rel (trigraph w) |}.
Proof.
  intros H. unfold filter_dict, use_filter_set. rewrite H.
  now destruct (filter_sample (args w)).
Qed.

Lemma startup_dataloaders o :
  snd (select_optimizer w) = Ok o ->
  In (ECreateDataloaders (filter_dict w)
        (if mix_cpu_gpu (args w) then Some (model_shared_ent_path w)
         else None))
     (r_startup (main w)).
Proof.
  intros Ho. rewrite main_startup, startup_eq, Ho. cbn [fst].
  rewrite !in_app_iff. do 2 right. unfold startup_suffix. simpl. tauto.
Qed.

(** With the test set enabled, an epoch ends in [break] exactly when one of
    its iterations leaves the counter above [max_steps]. *)
Lemma broke_iff_exceeded ep :
  test (args w) = true ->
  In ep (r_epochs (main w)) ->
  broke ep = true <->
  exists it, In it (ep_iterations ep) /\ exceeded w it = true.
Proof.
  intros Ht Hep.
  destruct (main_epoch_shape ep Hep) as (o & step & _ & _ & Hs).
  assert (Hsub : forall it, In it (ep_iterations ep) ->
                            In it (iterations (main w))).
  { intros it Hit. unfold iterations. apply in_flat_map. eauto. }
  split.
  - unfold broke. destruct (ep_end ep) as [n|n|e] eqn:E; try discriminate.
    intros _.
    destruct (epoch_shape_broke _ _ _ _ _ _ Hs eq_refl)
      as (l1 & it & Hl & Hres).
    assert (Hit : In it (ep_iterations ep))
      by (rewrite Hl; apply in_or_app; right; now left).
    exists it. split; [exact Hit|].
    destruct (iteration_completes it n Break (Hsub it Hit) Hres)
      as (Hn & Hf & _).
    unfold exceeded. rewrite Hres. unfold stop_flow in Hf.
    rewrite <- Hn in Hf.
    destruct (n >? max_steps (args w)); [reflexivity|discriminate].
  - intros (it & Hit & Hex). unfold exceeded in Hex.
    destruct (it_result it) as [[n f]|e] eqn:Hres; [|discriminate].
    destruct (iteration_completes it n f (Hsub it Hit) Hres)
      as (Hn & Hf & _).
    unfold stop_flow in Hf. rewrite <- Hn, Hex, Ht in Hf. simpl in Hf.
    subst f.
    destruct (in_split _ _ Hit) as (l1 & l2 & Hl).
    destruct (epoch_shape_last _ _ _ _ _ Hs _ _ _ Hl) as [_ Hb].
    destruct (Hb n Hres) as [_ Hend].
    unfold broke. now rewrite Hend.
Qed.

Lemma train_step_test_events o step b :
  Forall (fun e => is_test_evaluate e = true ->
                   e = EEvaluate TestLoader "test" (eval_filter w) None)
         (fst (train_step w o step b)).
Proof.
  eapply incl_Forall; [apply train_step_events_incl|].
  assert (Hnone : forall l,
    Forall (fun e : event TrueMap => is_test_evaluate e = false) l ->
    Forall (fun e => is_test_evaluate e = true ->
                     e = EEvaluate TestLoader "test" (eval_filter w) None) l).
  { intros l. apply Forall_impl. intros e H1 H2. congruence. }
  apply Forall_app; split; [apply Hnone; forall_events|].
  apply Forall_app; split; [apply Hnone; forall_events|].
  apply Forall_app; split; [apply Hnone; forall_events|].
  apply Forall_app; split; [apply Hnone; forall_events|].
  unfold stop_events.
  destruct ((step + 1 >? max_steps (args w)) && test (args w));
    repeat constructor.
Qed.

(** Once the optimizer is selected, the first batch of the first epoch is
    processed, at counter 1. *)
Lemma main_first_iteration o b rest :
  snd (select_optimizer w) = Ok o ->
  0 < num_epoch (args w) ->
  train_loader w 0%nat = b :: rest ->
  exists it l,
    iterations (main w) = it :: l /\ it_step it = 1 /\ it_batch it = b.
Proof.
  intros Ho Hn Hb. pose proof (startup_eq w) as Hs. rewrite Ho in Hs.
  unfold iterations, main. rewrite Hs. unfold epoch_range.
  destruct (Z.to_nat (num_epoch (args w))) as [|k] eqn:Ek; [lia|].
  cbn [seq train_epochs]. rewrite Hb. cbn [train_epoch].
  destruct (train_step w o 1 b) as [evs [[n []]|e]].
  - destruct (train_epoch w o n rest) as [its [m|m|x]].
    + destruct (train_epochs w o m (seq 1 k)) as [eps [x|]];
        cbn; do 2 eexists; (split; [reflexivity|split; reflexivity]).
    + destruct (train_epochs w o m (seq 1 k)) as [eps [x|]];
        cbn; do 2 eexists; (split; [reflexivity|split; reflexivity]).
    + cbn. do 2 eexists; (split; [reflexivity|split; reflexivity]).
  - destruct (train_epochs w o n (seq 1 k)) as [eps [x|]];
      cbn; do 2 eexists; (split; [reflexivity|split; reflexivity]).
  - cbn. do 2 eexists; (split; [reflexivity|split; reflexivity]).
Qed.

End TraceFacts.

(** ** The claims *)

Section Claims.

Context {TrueMap : Type}.
Variable w : World TrueMap.

(** C2: a batch whose mode is neither ['head'] nor ['tail'] makes its
    iteration raise [ValueError] right after [prepare_inputs] and [forward]:
    no loss is computed and no trace is dispatched.  The iteration is the
    last of the run, which raises the same error without reaching the
    shutdown; the batch is not tried again. *)
Theorem C2_unsupported_mode_is_fatal eps1 ep eps2 its1 it its2 :
  r_epochs (main w) = eps1 ++ ep :: eps2 ->
  ep_iterations ep = its1 ++ it :: its2 ->
  b_mode (it_batch it) <> "head" ->
  b_mode (it_batch it) <> "tail" ->
  it_events it =
    trainable_events (it_batch it) ++
    [EPrepareInputs (b_mode (it_batch it)); EForward] /\
  ~ In ELoss (it_events it) /\
  (forall t, ~ In (EModelStep t) (it_events it)) /\
  it_result it =
    Raise (ValueError
             ("unsupported negative mode " ++ b_mode (it_batch it))%string) /\
  its2 = [] /\ eps2 = [] /\
  r_shutdown (main w) = [] /\
  r_raised (main w) =
    Some (ValueError
            ("unsupported negative mode " ++ b_mode (it_batch it))%string).
Proof.
  intros Heps Hits Hh Ht.
  assert (Hin : In ep (r_epochs (main w)))
    by (rewrite Heps; apply in_or_app; right; now left).
  destruct (main_epoch_shape w ep Hin) as (o & step & _ & Hrun & Hep).
  assert (Hit : In it (ep_iterations ep))
    by (rewrite Hits; apply in_or_app; right; now left).
  pose proof (epoch_shape_runs _ _ _ _ _ Hep) as Hall.
  rewrite Forall_forall in Hall.
  destruct (runs_step_events _ _ _ (Hall it Hit)) as [Hev Hres].
  rewrite train_step_unsupported in Hev, Hres by assumption.
  cbn [fst snd] in Hev, Hres.
  destruct (epoch_shape_last _ _ _ _ _ Hep _ _ _ Hits) as [Hlast _].
  destruct (Hlast _ Hres) as [-> Hend].
  destruct (run_shape_failed_last _ _ _ _ _ Hrun _ _ _ _ Heps Hend)
    as [-> Hr].
  repeat split; auto.
  - rewrite Hev. unfold trainable_events.
    destruct (b_has_rel_emb (it_batch it)),
             (b_has_all_ents_emb (it_batch it));
      simpl; intuition discriminate.
  - intros t. rewrite Hev. unfold trainable_events.
    destruct (b_has_rel_emb (it_batch it)),
             (b_has_all_ents_emb (it_batch it));
      simpl; intuition discriminate.
  - rewrite (main_shutdown w), Hr. reflexivity.
Qed.

(** C3: with at least one dense parameter and an optimizer name other than
    ['Adam'] and ['Adagrad'], [main] raises [ValueError] during startup: the
    only calls made are those of lines 38-63, no epoch starts and the
    shutdown is not reached. *)
Theorem C3_unsupported_optimizer_is_fatal :
  (0 < num_parameters w)%nat ->
  mlp_optimizer (args w) <> "Adam" ->
  mlp_optimizer (args w) <> "Adagrad" ->
  main w =
    {| r_startup := startup_prefix w; r_epochs := []; r_shutdown := [];
       r_raised :=
         Some (ValueError ("optimizer " ++ mlp_optimizer (args w)
                             ++ " not supported!")%string) |} /\
  trace (main w) = startup_prefix w /\
  iterations (main w) = [] /\
  Forall (fun e => is_loop_event e = false) (trace (main w)).
Proof.
  intros Hn Ha Hg.
  assert (Hsel : select_optimizer w =
    ([], Raise (ValueError ("optimizer " ++ mlp_optimizer (args w)
                              ++ " not supported!")%string))).
  { destruct (select_optimizer_cases w)
      as [[H0 _]|[(_ & H & _)|[(_ & H & _)|(_ & _ & _ & H)]]];
      [lia|contradiction|contradiction|exact H]. }
  pose proof (startup_eq w) as Hs. rewrite Hsel in Hs. cbn [fst snd] in Hs.
  rewrite !app_nil_r in Hs.
  assert (Hm : main w =
    {| r_startup := startup_prefix w; r_epochs := []; r_shutdown := [];
       r_raised :=
         Some (ValueError ("optimizer " ++ mlp_optimizer (args w)
                             ++ " not supported!")%string) |}).
  { rewrite (main_raised_at_startup w _ (f_equal snd Hs)).
    now rewrite Hs. }
  rewrite Hm. unfold trace, iterations.
  cbn [r_startup r_epochs r_shutdown flat_map app].
  rewrite app_nil_r. repeat split.
  unfold startup_prefix.
  destruct (String.eqb (data_name (args w)) "wikikg90m"),
           (1 <? world_size w), (async_update (args w)),
           (0 <? num_parameters w)%nat;
    cbn [app andb]; repeat constructor.
Qed.

(** C4 (amended): a model without dense parameters gets one
    [RuntimeWarning], at startup, and no optimizer, and training goes on:
    the first batch of the first epoch is processed.  No iteration calls
    the optimizer.  An iteration on a supported mode runs lines 103-155 to
    the end, from [backward] directly to the dispatch of the embedding
    update; when in addition no interval that is consulted is zero it runs
    to its end and increments the counter.  An iteration raises exactly
    when it would have raised with an optimizer. *)
Theorem C4_no_parameters_warns_once :
  num_parameters w = 0%nat ->
  snd (startup w) = Ok None /\
  In EWarn (r_startup (main w)) /\
  count is_warn (trace (main w)) = 1%nat /\
  Forall (fun e => is_optimizer_call e = false) (trace (main w)) /\
  (forall b rest,
     0 < num_epoch (args w) -> train_loader w 0%nat = b :: rest ->
     exists it l,
       iterations (main w) = it :: l /\ it_step it = 1 /\
       it_batch it = b) /\
  forall it, In it (iterations (main w)) ->
    runs_step w None it /\
    (supported_mode (it_batch it) ->
     it_events it =
       update_events w None (it_batch it) ++
       fst (periodic_actions w (it_step it)) /\
     In (EModelStep (mix_cpu_gpu (args w))) (it_events it)) /\
    (supported_mode (it_batch it) -> intervals_nonzero w ->
     it_result it = Ok (it_step it + 1, stop_flow w (it_step it)) /\
     it_events it =
       update_events w None (it_batch it) ++ log_events w (it_step it) ++
       valid_events w (it_step it) ++ save_events w (it_step it) ++
       stop_events w (it_step it)) /\
    (forall o,
       it_result it = snd (train_step w o (it_step it) (it_batch it))).
Proof.
  intros Hn.
  assert (Hsel : select_optimizer w = ([EWarn], Ok None)).
  { destruct (select_optimizer_cases w)
      as [[_ H]|[(H & _)|[(H & _)|(H & _)]]]; [exact H|lia..]. }
  pose proof (startup_eq w) as Hs. rewrite Hsel in Hs. cbn [fst snd] in Hs.
  assert (Hst : r_startup (main w) =
                startup_prefix w ++ [EWarn] ++ startup_suffix w)
    by now rewrite main_startup, Hs.
  split; [now rewrite Hs|].
  split; [rewrite Hst, !in_app_iff; right; left; now left|].
  split; [|split; [|split]].
  - rewrite count_trace, Hst.
    rewrite (count_app _ (startup_prefix w)), (count_app _ [EWarn]).
    rewrite (count_none is_warn (startup_prefix w)).
    2:{ eapply Forall_impl; [|apply startup_prefix_events]. simpl. tauto. }
    rewrite (count_class is_warn _ _ (main_loop_events w))
      by (now intros []).
    rewrite (count_class is_warn _ _ (shutdown_events w))
      by (now intros []).
    reflexivity.
  - unfold trace. rewrite Hst.
    apply Forall_app; split; [apply Forall_app; split|
                              apply Forall_app; split].
    + eapply Forall_impl; [|apply startup_prefix_events]. simpl. tauto.
    + unfold startup_suffix. repeat constructor.
    + apply main_loop_events_forall; [reflexivity|].
      intros o s b Ho. rewrite Hsel in Ho. injection Ho as <-.
      eapply incl_Forall; [apply train_step_events_incl|].
      repeat (apply Forall_app; split); forall_events.
    + eapply Forall_impl; [|apply shutdown_events].
      now intros [].
  - intros b rest Hpos Hb.
    apply (main_first_iteration w None b rest); [now rewrite Hsel|auto..].
  - intros it Hin.
    destruct (main_iterations w it Hin) as (o & Ho & Hr).
    rewrite Hsel in Ho. injection Ho as <-.
    destruct (runs_step_events _ _ _ Hr) as [Hev Hres].
    split; [exact Hr|]. split; [|split].
    + intros Hm. rewrite Hev.
      rewrite train_step_supported_events by assumption.
      split; [reflexivity|].
      apply in_or_app. left. unfold update_events, dispatch_events.
      rewrite !in_app_iff. do 4 right.
      destruct (mix_cpu_gpu (args w)); simpl; tauto.
    + intros Hm Hi. rewrite Hev, Hres.
      rewrite train_step_completes by assumption. now split.
    + intros o. rewrite Hres. apply train_step_result_optimizer.
Qed.

(** C5 (amended): with asynchronous update enabled,
    [start_async_update] is called at startup.  When [main] returns without
    an exception, [finish_async_update] is called exactly once, after the
    last call of the training loop; only the final evaluation of the test
    set, if enabled, follows it.  When [main] raises,
    [finish_async_update] is not called at all. *)
Theorem C5_finish_async_update_on_return :
  async_update (args w) = true ->
  In EStartAsyncUpdate (r_startup (main w)) /\
  (r_raised (main w) = None ->
   trace (main w) =
     (r_startup (main w) ++ flat_map epoch_events (r_epochs (main w))) ++
     EFinishAsyncUpdate ::
     (if test (args w) then
        [EEvaluate TestLoader "test" (eval_filter w)
           (Some (os_path_join (save_path (args w)) "test.pkl"))]
      else []) /\
   ~ In EFinishAsyncUpdate
        (r_startup (main w) ++ flat_map epoch_events (r_epochs (main w)))) /\
  (forall e, r_raised (main w) = Some e ->
   ~ In EFinishAsyncUpdate (trace (main w))).
Proof.
  intros Ha.
  assert (Hbefore : ~ In EFinishAsyncUpdate
            (r_startup (main w) ++
             flat_map epoch_events (r_epochs (main w)))).
  { intros Hin. apply in_app_or in Hin. destruct Hin as [Hin|Hin].
    - revert Hin. apply (not_in_class is_startup_event);
        [apply main_startup_events|reflexivity].
    - revert Hin. apply (not_in_class is_loop_event);
        [apply main_loop_events|reflexivity]. }
  split; [|split].
  - rewrite main_startup, startup_eq. cbn [fst].
    apply in_or_app. left. unfold startup_prefix. rewrite Ha.
    destruct (String.eqb (data_name (args w)) "wikikg90m"),
             (1 <? world_size w); simpl; tauto.
  - intros Hr. split; [|exact Hbefore].
    unfold trace. rewrite main_shutdown, Hr. unfold shutdown. rewrite Ha.
    now rewrite <- app_assoc.
  - intros e Hr Hin. apply Hbefore. unfold trace in Hin.
    rewrite main_shutdown, Hr, app_nil_r in Hin. exact Hin.
Qed.

(** C6 (amended): an iteration that runs to its end leaves the counter at
    [n], one above its value when the batch was drawn, and calls
    [model.save] exactly when [n] is a multiple of [save_interval] or [n]
    is above [max_steps]; the only path it saves to is
    [os.path.join(save_path, 'step_<n>')]. *)
Theorem C6_checkpoint_condition it n f :
  In it (iterations (main w)) ->
  it_result it = Ok (n, f) ->
  n = it_step it + 1 /\
  forall p,
    In (ESave p) (it_events it) <->
    p = os_path_join (save_path (args w)) ("step_" ++ str_of_int n)%string /\
    (n mod save_interval (args w) = 0 \/ max_steps (args w) < n).
Proof.
  intros Hin Hres.
  destruct (iteration_completes w it n f Hin Hres)
    as (Hn & _ & _ & o & _ & Hev).
  split; [exact Hn|]. intros p. rewrite Hev, in_save_events, Hn.
  reflexivity.
Qed.

(** C7 (amended): with validation enabled, an iteration that runs to its
    end evaluates the validation stream exactly when the counter plus one
    is a multiple of [eval_interval]; the call has no output path, and its
    filter is the dictionary handed to the dataloaders when [filter_eval]
    is set and [None] otherwise. *)
Theorem C7_validation_schedule_and_filter it x :
  valid (args w) = true ->
  In it (iterations (main w)) ->
  it_result it = Ok x ->
  (forall sp fd out,
     In (EEvaluate ValidLoader sp fd out) (it_events it) <->
     (it_step it + 1) mod eval_interval (args w) = 0 /\
     sp = "valid" /\
     fd = (if filter_eval (args w) then filter_dict w else None) /\
     out = None) /\
  (exists sp, In (ECreateDataloaders (filter_dict w) sp)
                 (r_startup (main w))) /\
  (filter_eval (args w) = true ->
   filter_dict w =
   Some {| fd_head := true_heads_for_tail_rel (trigraph w);
           fd_tail := true_tails_for_head_rel (trigraph w) |}).
Proof.
  intros Hv Hin Hres. destruct x as [n f].
  destruct (iteration_completes w it n f Hin Hres)
    as (_ & _ & _ & o & Ho & Hev).
  split; [|split].
  - intros sp fd out. rewrite Hev, in_valid_events.
    unfold eval_filter. tauto.
  - eexists. eapply startup_dataloaders, Ho.
  - apply filter_eval_dict.
Qed.

(** C8 (amended): once an iteration has run to its end and left the
    counter above [max_steps], [save_interval] is not zero, and that
    iteration and every later iteration of the run whose batch has a
    supported mode runs to its end and saves a checkpoint, to [step_<n>]
    for its own counter [n], whether or not [n] is a multiple of
    [save_interval]; no later iteration that runs to its end fails to
    save. *)
Theorem C8_checkpoint_every_step_past_max_steps l1 it l2 n f :
  iterations (main w) = l1 ++ it :: l2 ->
  it_result it = Ok (n, f) ->
  max_steps (args w) < n ->
  save_interval (args w) <> 0 /\
  (forall it',
     In it' (it :: l2) ->
     supported_mode (it_batch it') ->
     it_result it' = Ok (it_step it' + 1, stop_flow w (it_step it')) /\
     max_steps (args w) < it_step it' + 1 /\
     In (ESave (os_path_join (save_path (args w))
                  ("step_" ++ str_of_int (it_step it' + 1))%string))
        (it_events it')) /\
  forall it' n' f',
    In it' (it :: l2) ->
    it_result it' = Ok (n', f') ->
    max_steps (args w) < n' /\
    In (ESave (os_path_join (save_path (args w))
                 ("step_" ++ str_of_int n')%string))
       (it_events it').
Proof.
  intros Hits Hres Hmax.
  assert (Hin : In it (iterations (main w)))
    by (rewrite Hits; apply in_or_app; right; now left).
  destruct (iteration_completes w it n f Hin Hres)
    as (Hn & _ & Hint & _).
  pose proof (main_counted w) as Hc. rewrite Hits in Hc.
  assert (Hok : forall it' n' f',
            In it' (it :: l2) -> it_result it' = Ok (n', f') ->
            n' = it_step it' + 1 /\ f' = stop_flow w (it_step it') /\
            max_steps (args w) < n' /\
            In (ESave (step_path w n')) (it_events it')).
  { intros it' n' f' Hin' Hres'.
    assert (Hin2 : In it' (iterations (main w)))
      by (rewrite Hits; apply in_or_app; now right).
    destruct (iteration_completes w it' n' f' Hin2 Hres')
      as (Hn' & Hf' & _ & o & _ & Hev).
    pose proof (counted_from_later _ _ _ _ _ Hc Hin') as Hle.
    assert (Hlt : max_steps (args w) < n') by lia.
    repeat split; try assumption.
    rewrite Hev. apply in_save_events. rewrite <- Hn'.
    split; [reflexivity|]. now right. }
  split; [apply Hint|]. split.
  - intros it' Hin' Hm.
    assert (Hin2 : In it' (iterations (main w)))
      by (rewrite Hits; apply in_or_app; now right).
    destruct (main_iterations w it' Hin2) as (o & _ & Hrun).
    destruct (runs_step_events _ _ _ Hrun) as [_ Hx].
    rewrite train_step_completes in Hx by assumption. cbn [snd] in Hx.
    destruct (Hok it' _ _ Hin' Hx) as (_ & _ & Hlt & Hsave).
    now repeat split.
  - intros it' n' f' Hin' Hres'.
    destruct (Hok it' n' f' Hin' Hres') as (_ & _ & Hlt & Hsave).
    now split.
Qed.

(** How often the test set is evaluated in a run that returns with the
    test set enabled and an iteration that left the counter above
    [max_steps]: inside the loop at every [break], without output path, and
    once after the loop with the output path
    [os.path.join(save_path, 'test.pkl')]. *)
Lemma test_evaluations_count :
  test (args w) = true ->
  r_raised (main w) = None ->
  (exists it, In it (iterations (main w)) /\ exceeded w it = true) ->
  count is_test_evaluate (trace (main w)) =
    S (List.length (filter broke (r_epochs (main w)))) /\
  (1 <= List.length (filter broke (r_epochs (main w))))%nat /\
  (forall ep, In ep (r_epochs (main w)) ->
     (broke ep = true <->
      exists it, In it (ep_iterations ep) /\ exceeded w it = true)) /\
  (forall e, In e (flat_map epoch_events (r_epochs (main w))) ->
     is_test_evaluate e = true ->
     e = EEvaluate TestLoader "test" (eval_filter w) None) /\
  (exists pre,
     r_shutdown (main w) =
       pre ++ [EEvaluate TestLoader "test" (eval_filter w)
                 (Some (os_path_join (save_path (args w)) "test.pkl"))] /\
     count is_test_evaluate pre = 0%nat).
Proof.
  intros Ht Hr (it & Hit & Hex).
  destruct (main_iterations w it Hit) as (o & Ho & _).
  assert (Hsnd : snd (startup w) = Ok o) by now rewrite startup_eq.
  destruct (main_trained w o Hsnd) as (_ & Hshape & Hsh).
  rewrite Hr in Hsh.
  assert (Hiff := fun ep => broke_iff_exceeded w ep Ht).
  split; [|split; [|split; [exact Hiff|split]]].
  - rewrite count_trace.
    rewrite (count_class is_test_evaluate _ _ (main_startup_events w))
      by (now intros []).
    rewrite (run_shape_count_test _ _ _ _ _ Hshape), Hsh.
    unfold shutdown. rewrite Ht.
    destruct (async_update (args w)); cbn; lia.
  - unfold iterations in Hit. apply in_flat_map in Hit.
    destruct Hit as (ep & Hep & Hin).
    assert (Hb : broke ep = true) by (apply Hiff; eauto).
    assert (Hf : In ep (filter broke (r_epochs (main w))))
      by (apply filter_In; now split).
    destruct (filter broke (r_epochs (main w))); [destruct Hf|simpl; lia].
  - assert (Hall : Forall
      (fun e => is_test_evaluate e = true ->
                e = EEvaluate TestLoader "test" (eval_filter w) None)
      (flat_map epoch_events (r_epochs (main w)))).
    { apply main_loop_events_forall; [discriminate|].
      intros. apply train_step_test_events. }
    rewrite Forall_forall in Hall. exact Hall.
  - exists (if async_update (args w) then [EFinishAsyncUpdate] else []).
    rewrite Hsh. unfold shutdown. rewrite Ht.
    split; [reflexivity|]. now destruct (async_update (args w)).
Qed.

(** In a run of a single epoch the test set is evaluated exactly twice. *)
Lemma single_epoch_two_test_evaluations :
  test (args w) = true ->
  r_raised (main w) = None ->
  (exists it, In it (iterations (main w)) /\ exceeded w it = true) ->
  (List.length (r_epochs (main w)) <= 1)%nat ->
  count is_test_evaluate (trace (main w)) = 2%nat.
Proof.
  intros Ht Hr Hex Hone.
  destruct (test_evaluations_count Ht Hr Hex) as (Hc & Hge & _).
  rewrite Hc. pose proof (filter_length_le broke (r_epochs (main w))).
  lia.
Qed.

(** C10: the filter dictionary exists exactly when one of [filter_sample],
    [filter_eval], [sample_weight] is set, then holding the two maps of the
    triple source; [sample_weight] alone is enough.  Every call of
    [create_dataloaders] in a run receives this value, [None] when none of
    the three is set, and a run whose optimizer selection succeeds makes
    that call during startup. *)
Theorem C10_filter_dict_iff :
  ((exists d, filter_dict w = Some d) <->
   filter_sample (args w) = true \/ filter_eval (args w) = true \/
   sample_weight (args w) = true) /\
  (forall d, filter_dict w = Some d ->
     d = {| fd_head := true_heads_for_tail_rel (trigraph w);
            fd_tail := true_tails_for_head_rel (trigraph w) |}) /\
  (sample_weight (args w) = true -> filter_dict w <> None) /\
  (filter_sample (args w) = false -> filter_eval (args w) = false ->
   sample_weight (args w) = false -> filter_dict w = None) /\
  (forall fd sp, In (ECreateDataloaders fd sp) (trace (main w)) ->
     fd = filter_dict w) /\
  (forall o, snd (select_optimizer w) = Ok o ->
     In (ECreateDataloaders (filter_dict w)
           (if mix_cpu_gpu (args w) then Some (model_shared_ent_path w)
            else None))
        (r_startup (main w))).
Proof.
  split; [|split; [|split; [|split; [|split]]]].
  - unfold filter_dict, use_filter_set.
    destruct (filter_sample (args w)), (filter_eval (args w)),
             (sample_weight (args w)); simpl; split;
      try (intros [d H]; discriminate); intros; eauto;
      intuition discriminate.
  - unfold filter_dict. destruct (use_filter_set w); congruence.
  - unfold filter_dict, use_filter_set. intros ->.
    destruct (filter_sample (args w)), (filter_eval (args w));
      discriminate.
  - unfold filter_dict, use_filter_set. now intros -> -> ->.
  - intros fd sp. unfold trace. rewrite !in_app_iff.
    intros [H|[H|H]].
    + rewrite main_startup, startup_eq in H. cbn [fst] in H.
      rewrite !in_app_iff in H. destruct H as [H|[H|H]].
      * pose proof (startup_prefix_events w) as Hp.
        rewrite Forall_forall in Hp.
        destruct (Hp _ H) as (_ & _ & _ & Hne). now contradiction (Hne fd sp).
      * destruct (select_optimizer_cases w)
          as [[_ E]|[(_ & _ & E)|[(_ & _ & E)|(_ & _ & _ & E)]]];
          rewrite E in H; simpl in H; intuition discriminate.
      * destruct (snd (select_optimizer w)); [|destruct H].
        unfold startup_suffix in H. simpl in H.
        destruct H as [H|[H|[]]]; congruence.
    + exfalso. revert H. apply (not_in_class is_loop_event);
        [apply main_loop_events|reflexivity].
    + exfalso. revert H. apply (not_in_class is_shutdown_event);
        [apply shutdown_events|reflexivity].
  - apply startup_dataloaders.
Qed.

End Claims.

(** ** The claims on the example runs *)

(** C1 (the code at a failing input): with [max_steps = 1] and the test set
    disabled, all three batches of the epoch are processed, the counter
    going from 1 to 4, and [main] returns; with the test set enabled and two
    epochs, the [break] of the first epoch does not keep the second epoch
    from processing a batch at counter 2. *)
Theorem C1_training_continues_past_max_steps :
  max_steps (args world_no_test) = 1 /\
  test (args world_no_test) = false /\
  map it_step (iterations (main world_no_test)) = [1; 2; 3] /\
  map it_result (iterations (main world_no_test)) =
    [Ok (2, Next); Ok (3, Next); Ok (4, Next)] /\
  r_raised (main world_no_test) = None /\
  max_steps (args world_two_epochs) = 1 /\
  test (args world_two_epochs) = true /\
  map (fun ep => map it_result (ep_iterations ep))
      (r_epochs (main world_two_epochs)) =
    [[Ok (2, Break)]; [Ok (3, Break)]].
Proof. vm_compute. repeat split. Qed.

Lemma C2_witness :
  r_raised (main world_async_odd) =
  Some (ValueError "unsupported negative mode head-batch").
Proof.
  refine (proj2 (proj2 (proj2 (proj2 (proj2 (proj2 (proj2
    (C2_unsupported_mode_is_fatal world_async_odd
       [] _ [] [_] (nth_iteration (main world_async_odd) 1) []
       eq_refl eq_refl _ _))))))));
    vm_compute; discriminate.
Defined.

Lemma C3_witness :
  r_raised (main world_sgd) =
  Some (ValueError "optimizer SGD not supported!").
Proof.
  refine (f_equal r_raised (proj1
    (C3_unsupported_optimizer_is_fatal world_sgd _ _ _)));
    vm_compute; [lia|discriminate|discriminate].
Defined.

Lemma C4_witness :
  (num_parameters world_no_parameters = 0%nat /\
   count is_warn (trace (main world_no_parameters)) = 1%nat) /\
  it_result (nth_iteration (main world_no_parameters) 0) = Ok (2, Next) /\
  it_events (nth_iteration (main world_no_parameters) 0) =
    [ESetTrainable RelEmb; ESetTrainable AllEntsEmb; EPrepareInputs "head";
     EForward; EGetNegScore TEmb true; EReshape 4; ELoss; EBackward;
     EModelStep false].
Proof.
  destruct (C4_no_parameters_warns_once world_no_parameters eq_refl)
    as (_ & _ & Hcount & _ & _ & Hstep).
  split; [split; [reflexivity|exact Hcount]|].
  destruct (Hstep (nth_iteration (main world_no_parameters) 0)
                  (or_introl eq_refl)) as (_ & _ & Hok & _).
  apply Hok.
  - left. reflexivity.
  - repeat split; discriminate.
Defined.

(** C4 as stated fails: without dense parameters, validation enabled and
    [eval_interval = 0], the first iteration, on a ['head'] batch, does not
    complete: it raises [ZeroDivisionError], and so does [main]. *)
Lemma C4_counterexample :
  num_parameters world_no_parameters_zero_eval = 0%nat /\
  b_mode (it_batch (nth_iteration (main world_no_parameters_zero_eval) 0))
    = "head" /\
  it_result (nth_iteration (main world_no_parameters_zero_eval) 0)
    = Raise ZeroDivisionError /\
  r_raised (main world_no_parameters_zero_eval) = Some ZeroDivisionError.
Proof. vm_compute. repeat split. Qed.

Lemma C5_witness :
  (In EStartAsyncUpdate (r_startup (main world_async)) /\
   ~ In EFinishAsyncUpdate
        (r_startup (main world_async) ++
         flat_map epoch_events (r_epochs (main world_async)))) /\
  ~ In EFinishAsyncUpdate (trace (main world_async_odd)).
Proof.
  split.
  - destruct (C5_finish_async_update_on_return world_async eq_refl)
      as (Hstart & Hret & _).
    split; [exact Hstart|]. now apply Hret.
  - destruct (C5_finish_async_update_on_return world_async_odd eq_refl)
      as (_ & _ & Hraise).
    apply (Hraise (ValueError "unsupported negative mode head-batch")).
    reflexivity.
Defined.

(** C5 as stated fails: asynchronous update is started, one update is
    dispatched, the second batch has an unknown mode, and the run ends in
    [ValueError] without [finish_async_update]. *)
Lemma C5_counterexample :
  async_update (args world_async_odd) = true /\
  In EStartAsyncUpdate (trace (main world_async_odd)) /\
  In (EModelStep true) (trace (main world_async_odd)) /\
  ~ In EFinishAsyncUpdate (trace (main world_async_odd)) /\
  r_raised (main world_async_odd) =
    Some (ValueError "unsupported negative mode head-batch").
Proof.
  vm_compute. repeat split; try tauto. intuition discriminate.
Qed.

Lemma C6_witness :
  In (ESave "output/step_3")
     (it_events (nth_iteration (main world_filter_eval) 1)).
Proof.
  apply (proj2 (C6_checkpoint_condition world_filter_eval
                  (nth_iteration (main world_filter_eval) 1) 3 Next
                  (or_intror (or_introl eq_refl)) eq_refl)).
  split; [reflexivity|left; reflexivity].
Defined.

(** C6 as stated fails: the first iteration leaves the counter at 2, which
    is not a multiple of [save_interval = 10], and saves to [step_2]. *)
Lemma C6_counterexample :
  it_result (nth_iteration (main world_no_test) 0) = Ok (2, Next) /\
  In (ESave "output/step_2")
     (it_events (nth_iteration (main world_no_test) 0)) /\
  2 mod save_interval (args world_no_test) <> 0.
Proof.
  vm_compute. repeat split; try tauto. discriminate.
Qed.

Lemma C7_witness :
  In (EEvaluate ValidLoader "valid" (Some example_dict) None)
     (it_events (nth_iteration (main world_filter_eval) 0)).
Proof.
  apply (proj1 (C7_validation_schedule_and_filter world_filter_eval
                  (nth_iteration (main world_filter_eval) 0) (2, Next)
                  eq_refl (or_introl eq_refl) eq_refl)).
  repeat split.
Defined.

(** C7 as stated fails: the dataloaders receive the filter dictionary, the
    validation call receives [None]. *)
Lemma C7_counterexample :
  valid (args world_filter_sample) = true /\
  In (ECreateDataloaders (Some example_dict) None)
     (trace (main world_filter_sample)) /\
  In (EEvaluate ValidLoader "valid" None None)
     (trace (main world_filter_sample)) /\
  ~ In (EEvaluate ValidLoader "valid" (Some example_dict) None)
       (trace (main world_filter_sample)).
Proof.
  vm_compute. repeat split; try tauto. intuition discriminate.
Qed.

Lemma C8_witness :
  (1 < 4 /\
   In (ESave "output/step_4")
      (it_events (nth_iteration (main world_no_test) 2))) /\
  it_result (nth_iteration (main world_no_test) 1) = Ok (3, Next).
Proof.
  destruct (C8_checkpoint_every_step_past_max_steps world_no_test
              [] (nth_iteration (main world_no_test) 0)
              [nth_iteration (main world_no_test) 1;
               nth_iteration (main world_no_test) 2] 2 Next
              eq_refl eq_refl eq_refl) as (_ & Hmode & Hok).
  split.
  - apply (Hok (nth_iteration (main world_no_test) 2) 4 Next
               (or_intror (or_intror (or_introl eq_refl))) eq_refl).
  - apply (Hmode (nth_iteration (main world_no_test) 1)
                 (or_intror (or_introl eq_refl))).
    right. reflexivity.
Defined.

(** C8 as stated fails: with [max_steps = 0] the counter is above
    [max_steps] from the start, and with [save_interval = 0] the first
    iteration, on a ['head'] batch, raises [ZeroDivisionError] at the [%]
    of the save condition: no checkpoint is written in the run. *)
Lemma C8_counterexample :
  max_steps (args world_zero_save) <
    it_step (nth_iteration (main world_zero_save) 0) /\
  b_mode (it_batch (nth_iteration (main world_zero_save) 0)) = "head" /\
  In (EModelStep false)
     (it_events (nth_iteration (main world_zero_save) 0)) /\
  saved_paths (trace (main world_zero_save)) = [] /\
  r_raised (main world_zero_save) = Some ZeroDivisionError.
Proof. vm_compute. repeat split. tauto. Qed.

(** C9 (the code at a failing input): with the test set enabled,
    [max_steps = 1] and two epochs, the first iteration of the first epoch
    leaves the counter above [max_steps] and breaks; the second epoch still
    processes a batch and breaks again, so the test set is evaluated twice
    inside the loop, without output path, and once more after the loop with
    the output path: three times, where a run of a single epoch gives
    two. *)
Theorem C9_test_set_evaluated_three_times :
  test (args world_two_epochs) = true /\
  num_epoch (args world_two_epochs) = 2 /\
  exceeded world_two_epochs (nth_iteration (main world_two_epochs) 0)
    = true /\
  r_raised (main world_two_epochs) = None /\
  map ep_end (r_epochs (main world_two_epochs)) = [Broke 2; Broke 3] /\
  filter is_test_evaluate (trace (main world_two_epochs)) =
    [EEvaluate TestLoader "test" None None;
     EEvaluate TestLoader "test" None None;
     EEvaluate TestLoader "test" None (Some "output/test.pkl")] /\
  count is_test_evaluate (trace (main world_two_epochs)) = 3%nat.
Proof. vm_compute. repeat split. Qed.

Lemma C10_witness :
  In (ECreateDataloaders (Some example_dict) None)
     (r_startup (main world_sample_weight)).
Proof.
  apply (proj2 (proj2 (proj2 (proj2 (proj2
           (C10_filter_dict_iff world_sample_weight))))) (Some Adagrad)).
  reflexivity.
Defined.

(** ** More on the loops: which batches and which epochs *)

Section LoaderFacts.

Context {TrueMap : Type}.
Variable w : World TrueMap.
Variable o : option optim_func.

(** The inner loop takes the batches of the stream in order and stops
    early only on [break] or on an exception. *)
Lemma train_epoch_batches bs : forall step,
  prefix_of (map it_batch (fst (train_epoch w o step bs))) bs /\
  (forall n, snd (train_epoch w o step bs) = Exhausted n ->
             map it_batch (fst (train_epoch w o step bs)) = bs).
Proof.
  induction bs as [|b rest IH]; intros step; simpl.
  - split; [now exists []|reflexivity].
  - destruct (train_step w o step b) as [evs [[n []]|e]].
    + destruct (IH n) as [[r Hr] Hex].
      destruct (train_epoch w o n rest) as [its en]. simpl in *.
      split.
      * exists r. now rewrite Hr at 1.
      * intros m Hm. now rewrite (Hex m Hm).
    + simpl. split; [now exists rest|discriminate].
    + simpl. split; [now exists rest|discriminate].
Qed.

Lemma train_epochs_loaders es : forall step,
  Forall (fun ep => exists s,
            (ep_iterations ep, ep_end ep) =
            train_epoch w o s (train_loader w (ep_index ep)))
         (fst (train_epochs w o step es)).
Proof.
  induction es as [|e rest IH]; intros step; simpl; [constructor|].
  destruct (train_epoch w o step (train_loader w e)) as [its en] eqn:E.
  assert (Hep : exists s,
    (ep_iterations {| ep_index := e; ep_iterations := its; ep_end := en |},
     ep_end {| ep_index := e; ep_iterations := its; ep_end := en |}) =
    train_epoch w o s
      (train_loader w
         (ep_index {| ep_index := e; ep_iterations := its; ep_end := en |})))
    by (exists step; simpl; now rewrite E).
  destruct en as [n|n|x].
  - specialize (IH n). destruct (train_epochs w o n rest). simpl in *.
    now constructor.
  - specialize (IH n). destruct (train_epochs w o n rest). simpl in *.
    now constructor.
  - simpl. now repeat constructor.
Qed.

(** The outer loop starts the epochs in order; only an exception keeps it
    from starting them all. *)
Lemma train_epochs_indices es : forall step,
  prefix_of (map ep_index (fst (train_epochs w o step es))) es /\
  (snd (train_epochs w o step es) = None ->
   map ep_index (fst (train_epochs w o step es)) = es).
Proof.
  induction es as [|e rest IH]; intros step; simpl.
  - split; [now exists []|reflexivity].
  - destruct (train_epoch w o step (train_loader w e)) as [its [n|n|x]].
    + destruct (IH n) as [[r Hr] Hex].
      destruct (train_epochs w o n rest) as [eps res]. simpl in *.
      split; [exists r; now rewrite Hr at 1|].
      intros Hn. now rewrite (Hex Hn).
    + destruct (IH n) as [[r Hr] Hex].
      destruct (train_epochs w o n rest) as [eps res]. simpl in *.
      split; [exists r; now rewrite Hr at 1|].
      intros Hn. now rewrite (Hex Hn).
    + simpl. split; [now exists rest|discriminate].
Qed.

Lemma epoch_shape_failed_origin step its en e :
  epoch_shape w o step its en -> en = Failed e ->
  exists l it, its = l ++ [it] /\ it_result it = Raise e.
Proof.
  induction 1 as [s|s it0 its en Hr Hs Hres _ IH|s it0 Hr Hs Hres
                 |s it0 e0 Hr Hs Hres]; intros E; try discriminate.
  - destruct (IH E) as (l & it & -> & Hit).
    exists (it0 :: l), it. now split.
  - injection E as <-. exists [], it0. now split.
Qed.

Lemma run_shape_raised_origin step eps e :
  run_shape w o step eps (Some e) ->
  exists l ep, eps = l ++ [ep] /\ ep_end ep = Failed e.
Proof.
  remember (Some e) as r eqn:Er.
  induction 1 as [s|s ep0 s' eps r Hep Hend _ IH|s ep0 e0 Hep Hend];
    [discriminate| |].
  - destruct (IH Er) as (l & ep & -> & He).
    exists (ep0 :: l), ep. now split.
  - injection Er as ->. exists [], ep0. now split.
Qed.

End LoaderFacts.

Section MainFacts.

Context {TrueMap : Type}.
Variable w : World TrueMap.

Lemma main_epochs o :
  snd (select_optimizer w) = Ok o ->
  r_epochs (main w) = fst (train_epochs w o 1 (epoch_range w)) /\
  r_raised (main w) = snd (train_epochs w o 1 (epoch_range w)).
Proof.
  intros Ho.
  assert (Hs : snd (startup w) = Ok o) by now rewrite startup_eq.
  unfold main. destruct (startup w) as [t [x|e]]; simpl in Hs;
    [|discriminate].
  injection Hs as ->.
  now destruct (train_epochs w o 1 (epoch_range w)) as [eps [e|]].
Qed.

Lemma main_not_selected e :
  snd (select_optimizer w) = Raise e ->
  r_epochs (main w) = [] /\ r_raised (main w) = Some e.
Proof.
  intros He.
  assert (Hs : snd (startup w) = Raise e) by now rewrite startup_eq.
  now rewrite (main_raised_at_startup w e Hs).
Qed.

(** Every epoch of a run is [train_epoch] on the stream of its index. *)
Lemma main_epoch_loader ep :
  In ep (r_epochs (main w)) ->
  exists o s,
    snd (select_optimizer w) = Ok o /\
    (ep_iterations ep, ep_end ep) =
    train_epoch w o s (train_loader w (ep_index ep)).
Proof.
  intros Hin. destruct (snd (select_optimizer w)) as [o|e] eqn:Ho.
  - destruct (main_epochs o Ho) as [He _]. rewrite He in Hin.
    pose proof (train_epochs_loaders w o (epoch_range w) 1) as Hall.
    rewrite Forall_forall in Hall. destruct (Hall ep Hin) as [s Hs].
    now exists o, s.
  - destruct (main_not_selected e Ho) as [He _]. rewrite He in Hin.
    destruct Hin.
Qed.

(** An iteration that raises is the last of the run, and [main] raises the
    same exception. *)
Lemma raising_iteration_ends_run it e :
  In it (iterations (main w)) -> it_result it = Raise e ->
  r_raised (main w) = Some e /\
  exists l, iterations (main w) = l ++ [it].
Proof.
  intros Hin Hres. unfold iterations in *.
  apply in_flat_map in Hin. destruct Hin as (ep & Hep & Hit).
  destruct (main_epoch_shape w ep Hep) as (o & step & _ & Hrun & Hs).
  destruct (in_split _ _ Hit) as (l1 & l2 & Hl).
  destruct (epoch_shape_last _ _ _ _ _ Hs _ _ _ Hl) as [Hlast _].
  destruct (Hlast e Hres) as [-> Hend].
  destruct (in_split _ _ Hep) as (e1 & e2 & He).
  destruct (run_shape_failed_last _ _ _ _ _ Hrun _ _ _ _ He Hend)
    as [-> Hr].
  split; [exact Hr|].
  exists (flat_map ep_iterations e1 ++ l1).
  rewrite He, flat_map_app. simpl. rewrite Hl, app_nil_r.
  now rewrite app_assoc.
Qed.

(** Where an exception of [main] comes from. *)
Lemma main_raised_origin e :
  r_raised (main w) = Some e ->
  snd (select_optimizer w) = Raise e \/
  exists it, In it (iterations (main w)) /\ it_result it = Raise e.
Proof.
  intros Hr. destruct (snd (select_optimizer w)) as [o|x] eqn:Ho.
  - right.
    assert (Hs : snd (startup w) = Ok o) by now rewrite startup_eq.
    destruct (main_trained w o Hs) as (_ & Hshape & _).
    rewrite Hr in Hshape.
    destruct (run_shape_raised_origin _ _ _ _ _ Hshape)
      as (l & ep & Hl & Hend).
    assert (Hep : In ep (r_epochs (main w)))
      by (rewrite Hl; apply in_or_app; right; now left).
    pose proof (run_shape_epochs _ _ _ _ _ Hshape) as Hall.
    rewrite Forall_forall in Hall. destruct (Hall ep Hep) as [s Hes].
    destruct (epoch_shape_failed_origin _ _ _ _ _ _ Hes Hend)
      as (l' & it & Hl' & Hres).
    exists it. split; [|exact Hres].
    unfold iterations. apply in_flat_map. exists ep. split; [exact Hep|].
    rewrite Hl'. apply in_or_app. right. now left.
  - left. destruct (main_not_selected x Ho) as [_ H]. congruence.
Qed.

Lemma iteration_batch_in_loader it :
  In it (iterations (main w)) ->
  exists ep, In ep (r_epochs (main w)) /\
             In (it_batch it) (train_loader w (ep_index ep)).
Proof.
  intros Hin. unfold iterations in Hin. apply in_flat_map in Hin.
  destruct Hin as (ep & Hep & Hit). exists ep. split; [exact Hep|].
  destruct (main_epoch_loader ep Hep) as (o & s & _ & Hs).
  destruct (train_epoch_batches w o (train_loader w (ep_index ep)) s)
    as [[rest Hr] _].
  rewrite <- Hs in Hr. cbn [fst] in Hr. rewrite Hr.
  apply in_or_app. left. now apply in_map.
Qed.

End MainFacts.

(** ** Further properties of [main] *)

Section Extras.

Context {TrueMap : Type}.
Variable w : World TrueMap.

Lemma counted_from_steps step (l : list (iteration TrueMap)) :
  counted_from step l ->
  map it_step l = map (fun k => step + Z.of_nat k) (seq 0 (List.length l)).
Proof.
  revert step. induction l as [|x l IH]; intros step; simpl; [reflexivity|].
  intros [Hx Hl]. rewrite Hx, (IH _ Hl), <- seq_shift, map_map.
  f_equal; [lia|]. apply map_ext. intros k. lia.
Qed.

(** X1: the counter starts at 1 and is never reset: the [k]-th batch
    processed by a run, over all epochs, is drawn at counter [k]. *)
Theorem X1_counter_counts_batches :
  map it_step (iterations (main w)) =
  map (fun k => 1 + Z.of_nat k)
      (seq 0 (List.length (iterations (main w)))).
Proof. apply counted_from_steps, main_counted. Qed.

Lemma select_optimizer_known :
  num_parameters w = 0%nat \/ mlp_optimizer (args w) = "Adam" \/
  mlp_optimizer (args w) = "Adagrad" ->
  exists o, snd (select_optimizer w) = Ok o.
Proof.
  intros H.
  destruct (select_optimizer_cases w)
    as [[_ E]|[(_ & _ & E)|[(_ & _ & E)|(Hn & Ha & Hg & _)]]];
    try (rewrite E; eexists; reflexivity).
  destruct H as [H|[H|H]]; [lia|contradiction|contradiction].
Qed.

Lemma main_epoch_in_range ep :
  In ep (r_epochs (main w)) -> In (ep_index ep) (epoch_range w).
Proof.
  intros Hin. destruct (snd (select_optimizer w)) as [o|e] eqn:Ho.
  - destruct (main_epochs w o Ho) as [He _].
    destruct (train_epochs_indices w o (epoch_range w) 1) as [[r Hr] _].
    rewrite <- He in Hr. rewrite Hr. apply in_or_app. left.
    now apply in_map.
  - destruct (main_not_selected w e Ho) as [He _]. rewrite He in Hin.
    destruct Hin.
Qed.

(** X2: [main] returns without an exception when the optimizer can be
    selected, no interval that is consulted is zero, and every batch of
    every epoch has mode ['head'] or ['tail']; it then started every epoch
    of [range(num_epoch)] and ran the shutdown. *)
Theorem X2_returns_on_supported_input :
  num_parameters w = 0%nat \/ mlp_optimizer (args w) = "Adam" \/
  mlp_optimizer (args w) = "Adagrad" ->
  intervals_nonzero w ->
  (forall e b, In e (epoch_range w) -> In b (train_loader w e) ->
               supported_mode b) ->
  r_raised (main w) = None /\
  r_shutdown (main w) = shutdown w /\
  map ep_index (r_epochs (main w)) = epoch_range w.
Proof.
  intros Hopt Hint Hmodes.
  destruct (select_optimizer_known Hopt) as [o Ho].
  assert (Hr : r_raised (main w) = None).
  { destruct (r_raised (main w)) as [e|] eqn:Hr; [|reflexivity].
    exfalso. destruct (main_raised_origin w e Hr) as [H|(it & Hin & Hres)].
    - congruence.
    - destruct (iteration_batch_in_loader w it Hin) as (ep & Hep & Hb).
      pose proof (Hmodes _ _ (main_epoch_in_range ep Hep) Hb) as Hm.
      destruct (main_iterations w it Hin) as (o' & _ & Hrun).
      destruct (runs_step_events _ _ _ Hrun) as [_ Hx].
      rewrite train_step_completes in Hx by assumption.
      simpl in Hx. congruence. }
  split; [exact Hr|]. split.
  - now rewrite main_shutdown, Hr.
  - destruct (main_epochs w o Ho) as [He Hs]. rewrite He.
    apply train_epochs_indices. now rewrite <- Hs.
Qed.

(** X3: the only exceptions [main] raises itself.  Either the optimizer
    name is unknown and nothing was trained; or the last batch drawn has an
    unsupported mode; or an interval is zero and the last iteration raised
    [ZeroDivisionError] after dispatching its update. *)
Theorem X3_exceptions_of_main e :
  r_raised (main w) = Some e ->
  (e = ValueError ("optimizer " ++ mlp_optimizer (args w)
                     ++ " not supported!")%string /\
   (0 < num_parameters w)%nat /\
   mlp_optimizer (args w) <> "Adam" /\
   mlp_optimizer (args w) <> "Adagrad" /\
   iterations (main w) = []) \/
  (exists l it,
     iterations (main w) = l ++ [it] /\
     b_mode (it_batch it) <> "head" /\ b_mode (it_batch it) <> "tail" /\
     e = ValueError
           ("unsupported negative mode " ++ b_mode (it_batch it))%string) \/
  (exists l it,
     iterations (main w) = l ++ [it] /\
     supported_mode (it_batch it) /\
     ~ intervals_nonzero w /\
     In (EModelStep (mix_cpu_gpu (args w))) (it_events it) /\
     e = ZeroDivisionError).
Proof.
  intros Hr. destruct (main_raised_origin w e Hr) as [H|(it & Hin & Hres)].
  - left.
    destruct (select_optimizer_cases w)
      as [[_ E]|[(_ & _ & E)|[(_ & _ & E)|(Hn & Ha & Hg & E)]]];
      rewrite E in H; try discriminate.
    injection H as <-. repeat split; try assumption.
    unfold iterations.
    destruct (main_not_selected w _ (f_equal snd E)) as [-> _].
    reflexivity.
  - right.
    destruct (raising_iteration_ends_run w it e Hin Hres) as [_ [l Hl]].
    destruct (main_iterations w it Hin) as (o & _ & Hrun).
    destruct (runs_step_events _ _ _ Hrun) as [Hev Hx].
    rewrite Hres in Hx.
    destruct (mode_cases (it_batch it)) as [Hm|[Hh Ht]].
    + right. exists l, it.
      assert (Hn : ~ intervals_nonzero w).
      { intros Hi. rewrite train_step_completes in Hx by assumption.
        discriminate. }
      destruct (train_step_zero_division w o (it_step it) _ Hm Hn)
        as [Hz _].
      repeat split; try assumption.
      * rewrite Hev, train_step_supported_events by assumption.
        apply in_or_app. left. unfold update_events, dispatch_events.
        rewrite !in_app_iff. do 4 right.
        destruct (mix_cpu_gpu (args w)); simpl; tauto.
      * congruence.
    + left. exists l, it.
      rewrite train_step_unsupported in Hx by assumption.
      cbn [snd] in Hx.
      repeat split; try assumption. congruence.
Qed.

(** X4: the outer loop is never cut short by [break]: the epochs started
    are an initial segment of [range(num_epoch)], and a run that returns
    started every one of them, whether or not the counter exceeded
    [max_steps] on the way. *)
Theorem X4_every_epoch_is_started :
  prefix_of (map ep_index (r_epochs (main w))) (epoch_range w) /\
  (r_raised (main w) = None ->
   map ep_index (r_epochs (main w)) = seq 0 (Z.to_nat (num_epoch (args w)))).
Proof.
  destruct (snd (select_optimizer w)) as [o|e] eqn:Ho.
  - destruct (main_epochs w o Ho) as [He Hs]. rewrite He, Hs.
    apply train_epochs_indices.
  - destruct (main_not_selected w e Ho) as [He Hs]. rewrite He, Hs.
    split; [now exists (epoch_range w)|discriminate].
Qed.

(** X5: within an epoch the batches are processed in the order of the
    training stream, none skipped and none repeated; with the test set
    disabled, a run that returns processed every batch of every epoch. *)
Theorem X5_batches_in_stream_order ep :
  In ep (r_epochs (main w)) ->
  prefix_of (map it_batch (ep_iterations ep))
            (train_loader w (ep_index ep)) /\
  (test (args w) = false -> r_raised (main w) = None ->
   map it_batch (ep_iterations ep) = train_loader w (ep_index ep)).
Proof.
  intros Hep. destruct (main_epoch_loader w ep Hep) as (o & s & Ho & Hs).
  destruct (train_epoch_batches w o (train_loader w (ep_index ep)) s)
    as [Hpre Hex].
  rewrite <- Hs in Hpre, Hex. cbn [fst snd] in Hpre, Hex.
  split; [exact Hpre|]. intros Ht Hr.
  destruct (main_epoch_shape w ep Hep) as (o' & step & _ & Hrun & Hshape).
  destruct (ep_end ep) as [n|n|e] eqn:E.
  - now apply (Hex n).
  - exfalso.
    destruct (epoch_shape_broke _ _ _ _ _ _ Hshape eq_refl)
      as (l & it & Hl & Hres).
    assert (Hin : In it (iterations (main w))).
    { unfold iterations. apply in_flat_map. exists ep. split; [exact Hep|].
      rewrite Hl. apply in_or_app. right. now left. }
    destruct (iteration_completes w it n Break Hin Hres) as (_ & Hf & _).
    unfold stop_flow in Hf. rewrite Ht, andb_false_r in Hf. discriminate.
  - exfalso. rewrite Hr in Hrun.
    pose proof (run_shape_returned _ _ _ _ Hrun) as Hall.
    rewrite Forall_forall in Hall. now apply (Hall ep Hep e).
Qed.

(** X6: with the test set enabled, the iteration that leaves the counter
    above [max_steps] is the last of its epoch, which ends in [break]; every
    later epoch of the run processes at most one batch. *)
Theorem X6_break_ends_epoch_only e1 ep e2 l1 it l2 :
  test (args w) = true ->
  r_epochs (main w) = e1 ++ ep :: e2 ->
  ep_iterations ep = l1 ++ it :: l2 ->
  exceeded w it = true ->
  l2 = [] /\
  ep_end ep = Broke (it_step it + 1) /\
  forall ep', In ep' e2 -> (List.length (ep_iterations ep') <= 1)%nat.
Proof.
  intros Ht Heps Hits Hex.
  assert (Hsub : forall ep0 x, In ep0 (r_epochs (main w)) ->
                   In x (ep_iterations ep0) -> In x (iterations (main w))).
  { intros ep0 x H1 H2. unfold iterations. apply in_flat_map. eauto. }
  assert (Hep : In ep (r_epochs (main w)))
    by (rewrite Heps; apply in_or_app; right; now left).
  assert (Hit : In it (ep_iterations ep))
    by (rewrite Hits; apply in_or_app; right; now left).
  destruct (main_epoch_shape w ep Hep) as (o & step & _ & _ & Hs).
  unfold exceeded in Hex.
  destruct (it_result it) as [[n f]|e] eqn:Hres; [|discriminate].
  destruct (iteration_completes w it n f (Hsub _ _ Hep Hit) Hres)
    as (Hn & Hf & _).
  unfold stop_flow in Hf. rewrite <- Hn, Hex, Ht in Hf. simpl in Hf.
  subst f.
  destruct (epoch_shape_last _ _ _ _ _ Hs _ _ _ Hits) as [_ Hb].
  destruct (Hb n Hres) as [-> Hend].
  split; [reflexivity|]. split; [now rewrite Hend, Hn|].
  intros ep' Hep'.
  destruct (ep_iterations ep') as [|x [|y t]] eqn:E; simpl; try lia.
  exfalso.
  assert (Hin' : In ep' (r_epochs (main w)))
    by (rewrite Heps; apply in_or_app; right; now right).
  assert (Hx : In x (ep_iterations ep')) by (rewrite E; now left).
  destruct (main_epoch_shape w ep' Hin') as (o' & step' & _ & _ & Hs').
  destruct (epoch_shape_last _ _ _ _ _ Hs' [] x (y :: t) E) as [Hr' Hb'].
  pose proof (main_counted w) as Hc. unfold iterations in Hc.
  rewrite Heps, flat_map_app in Hc. simpl in Hc. rewrite Hits in Hc.
  rewrite <- !app_assoc in Hc. simpl in Hc. rewrite app_assoc in Hc.
  assert (Hlater : In x (it :: flat_map ep_iterations e2)).
  { right. apply in_flat_map. eauto. }
  pose proof (counted_from_later _ _ _ _ _ Hc Hlater) as Hle.
  destruct (it_result x) as [[m g]|e] eqn:Hresx.
  - destruct (iteration_completes w x m g (Hsub _ _ Hin' Hx) Hresx)
      as (Hm & Hg & _).
    unfold stop_flow in Hg.
    assert (Hgt : (it_step x + 1 >? max_steps (args w)) = true).
    { apply Z.gtb_lt. apply Z.gtb_lt in Hex. lia. }
    rewrite Hgt, Ht in Hg. simpl in Hg. subst g.
    destruct (Hb' m eq_refl) as [Hnil _]. discriminate.
  - destruct (Hr' e eq_refl) as [Hnil _]. discriminate.
Qed.

Ltac not_in_events :=
  let H := fresh in
  unfold_events; intros H;
  repeat match type of H with
         | context [if ?c then _ else _] => destruct c
         | context [match ?o with Some _ => _ | None => _ end] =>
             is_var o; destruct o
         end;
  cbn [app In] in H; intuition discriminate.

(** X7: an iteration that runs to its end calls [print_log] exactly when
    the counter plus one is a multiple of [log_interval], and reports the
    counter as it was when the batch was drawn, one below the number used
    for the checkpoint of the same iteration. *)
Theorem X7_log_schedule it n f s i :
  In it (iterations (main w)) ->
  it_result it = Ok (n, f) ->
  (In (EPrintLog s i) (it_events it) <->
   s = n - 1 /\ i = log_interval (args w) /\
   n mod log_interval (args w) = 0).
Proof.
  intros Hin Hres.
  destruct (iteration_completes w it n f Hin Hres)
    as (Hn & _ & _ & o & _ & Hev).
  rewrite Hev, !in_app_iff.
  assert (H1 : ~ In (EPrintLog s i) (update_events w o (it_batch it)))
    by not_in_events.
  assert (H2 : ~ In (EPrintLog s i) (valid_events w (it_step it)))
    by not_in_events.
  assert (H3 : ~ In (EPrintLog s i) (save_events w (it_step it)))
    by not_in_events.
  assert (H4 : ~ In (EPrintLog s i) (stop_events w (it_step it)))
    by not_in_events.
  assert (H5 : In (EPrintLog s i) (log_events w (it_step it)) <->
               s = n - 1 /\ i = log_interval (args w) /\
               n mod log_interval (args w) = 0).
  { unfold log_events. rewrite Hn.
    destruct ((it_step it + 1) mod log_interval (args w) =? 0) eqn:E.
    - apply Z.eqb_eq in E. simpl. split.
      + intros [[= <- <-]|[]]. repeat split; [lia|exact E].
      + intros (-> & -> & _). left. f_equal. lia.
    - apply Z.eqb_neq in E. simpl. tauto. }
  tauto.
Qed.

(** X8: the mode of the batch selects the negative score: for ['head'] the
    tail embedding is the fixed operand and the flag is [True], for ['tail']
    the head embedding and [False]; no other call of [get_neg_score] is
    made, and none at all for another mode. *)
Theorem X8_negative_score_by_mode it fixed flag :
  In it (iterations (main w)) ->
  (In (EGetNegScore fixed flag) (it_events it) <->
   (b_mode (it_batch it) = "head" /\ fixed = TEmb /\ flag = true) \/
   (b_mode (it_batch it) = "tail" /\ fixed = HEmb /\ flag = false)).
Proof.
  intros Hin. destruct (main_iterations w it Hin) as (o & _ & Hrun).
  destruct (runs_step_events _ _ _ Hrun) as [Hev _].
  destruct (mode_cases (it_batch it)) as [Hm|[Hh Ht]].
  - assert (Hup : In (EGetNegScore fixed flag)
                     (update_events w o (it_batch it)) <->
                  (EGetNegScore fixed flag : event TrueMap) =
                  neg_score_event (it_batch it)).
    { unfold update_events, trainable_events, regularization_events,
        optimizer_events, dispatch_events.
      destruct (b_has_rel_emb (it_batch it)),
               (b_has_all_ents_emb (it_batch it)),
               (use_embedding_regularization (args w)), o,
               (mix_cpu_gpu (args w));
        cbn [app In]; intuition (try discriminate; auto). }
    assert (Hev' : In (EGetNegScore fixed flag) (it_events it) <->
                   In (EGetNegScore fixed flag)
                      (update_events w o (it_batch it))).
    { split.
      - intros H. rewrite Hev in H.
        apply train_step_events_incl in H.
        rewrite !in_app_iff in H.
        destruct H as [H|[H|[H|[H|H]]]]; [exact H|exfalso..];
          revert H; not_in_events.
      - intros H. rewrite Hev, train_step_supported_events by assumption.
        apply in_or_app. now left. }
    rewrite Hev', Hup. unfold neg_score_event.
    destruct Hm as [Hm|Hm]; rewrite Hm; simpl; split.
    + intros [= -> ->]. left. now repeat split.
    + intros [(_ & -> & ->)|(H & _)]; [reflexivity|discriminate].
    + intros [= -> ->]. right. now repeat split.
    + intros [(H & _)|(_ & -> & ->)]; [discriminate|reflexivity].
  - rewrite Hev, train_step_unsupported by assumption. cbn [fst].
    split.
    + unfold trainable_events.
      destruct (b_has_rel_emb (it_batch it)),
               (b_has_all_ents_emb (it_batch it));
        cbn [app In]; intuition discriminate.
    + intros [(H & _)|(H & _)]; contradiction.
Qed.

(** X9: every call of [evaluate] in a run receives the same filter, the
    dictionary when [filter_eval] is set and [None] otherwise.  The
    validation stream is evaluated only when [valid] is set, under the name
    ['valid'] and without output path; the test stream only when [test] is
    set, under the name ['test'], and the only output path ever used is
    [os.path.join(save_path, 'test.pkl')]. *)
Theorem X9_evaluate_calls l sp fd out :
  In (EEvaluate l sp fd out) (trace (main w)) ->
  fd = (if filter_eval (args w) then filter_dict w else None) /\
  ((l = ValidLoader /\ sp = "valid" /\ out = None /\
    valid (args w) = true) \/
   (l = TestLoader /\ sp = "test" /\ test (args w) = true /\
    (out = None \/
     out = Some (os_path_join (save_path (args w)) "test.pkl")))).
Proof.
  set (q := fun e : event TrueMap =>
              match e with EEvaluate _ _ _ _ => false | _ => true end).
  set (P := fun e : event TrueMap =>
    forall l sp fd out, e = EEvaluate l sp fd out ->
    fd = eval_filter w /\
    ((l = ValidLoader /\ sp = "valid" /\ out = None /\
      valid (args w) = true) \/
     (l = TestLoader /\ sp = "test" /\ test (args w) = true /\
      (out = None \/
       out = Some (os_path_join (save_path (args w)) "test.pkl"))))).
  assert (Hnone : forall es : list (event TrueMap),
            Forall (fun e => q e = true) es -> Forall P es).
  { intros es. apply Forall_impl. intros e He l0 sp0 fd0 out0 E.
    subst e. discriminate He. }
  assert (Hall : Forall P (trace (main w))).
  { unfold trace. apply Forall_app; split; [|apply Forall_app; split].
    - apply Hnone. eapply Forall_impl; [|apply main_startup_events].
      intros [] H; try discriminate H; reflexivity.
    - apply main_loop_events_forall; [intros ? ? ? ? [=]|].
      intros o s b _.
      eapply incl_Forall; [apply train_step_events_incl|].
      apply Forall_app; split; [apply Hnone; forall_events|].
      apply Forall_app; split; [apply Hnone; forall_events|].
      apply Forall_app; split; [|apply Forall_app; split].
      + unfold valid_events.
        destruct (valid (args w) &&
                  ((s + 1) mod eval_interval (args w) =? 0)) eqn:E;
          [|constructor].
        apply andb_true_iff in E. destruct E as [Ev _].
        constructor; [|constructor].
        intros ? ? ? ? [= <- <- <- <-]. split; [reflexivity|]. left.
        now repeat split.
      + apply Hnone; forall_events.
      + unfold stop_events.
        destruct ((s + 1 >? max_steps (args w)) && test (args w)) eqn:E;
          [|constructor].
        apply andb_true_iff in E. destruct E as [_ Et].
        constructor; [|constructor].
        intros ? ? ? ? [= <- <- <- <-]. split; [reflexivity|]. right.
        repeat split; auto.
    - rewrite main_shutdown. destruct (r_raised (main w)); [constructor|].
      unfold shutdown.
      assert (Hfin : P EFinishAsyncUpdate) by (intros ? ? ? ? [=]).
      assert (Htest : test (args w) = true ->
                P (EEvaluate TestLoader "test" (eval_filter w)
                     (Some (os_path_join (save_path (args w)) "test.pkl")))).
      { intros Et ? ? ? ? [= <- <- <- <-]. split; [reflexivity|]. right.
        repeat split; auto. }
      destruct (async_update (args w)), (test (args w)) eqn:Et;
        cbn [app]; repeat (apply Forall_cons || apply Forall_nil); auto. }
  intros Hin. rewrite Forall_forall in Hall.
  exact (Hall _ Hin l sp fd out eq_refl).
Qed.

(** X10: [init_parallel_env] is called exactly when the world size is
    above 1, and the model is wrapped in [DataParallel] exactly when, in
    addition, it has at least one dense parameter. *)
Theorem X10_distributed_setup :
  (In EInitParallelEnv (trace (main w)) <-> 1 < world_size w) /\
  (In EDataParallel (trace (main w)) <->
   1 < world_size w /\ (0 < num_parameters w)%nat).
Proof.
  assert (Hparts : forall e : event TrueMap,
    is_loop_event e = false -> is_shutdown_event e = false ->
    (forall f, e <> ECreateOptimizer f) -> e <> EWarn ->
    e <> ECreateLossFunction ->
    (forall fd sp, e <> ECreateDataloaders fd sp) ->
    (In e (trace (main w)) <-> In e (startup_prefix w))).
  { intros e Hl Hs Ho Hw Hf Hd. unfold trace.
    rewrite main_startup, startup_eq. cbn [fst]. rewrite !in_app_iff.
    split; [|tauto].
    intros [[H|[H|H]]|[H|H]]; [exact H|exfalso..].
    - destruct (select_optimizer_cases w)
        as [[_ E]|[(_ & _ & E)|[(_ & _ & E)|(_ & _ & _ & E)]]];
        rewrite E in H; simpl in H.
      + destruct H as [H|[]]. symmetry in H. now apply Hw.
      + destruct H as [H|[]]. symmetry in H. now apply (Ho Adam).
      + destruct H as [H|[]]. symmetry in H. now apply (Ho Adagrad).
      + exact H.
    - destruct (snd (select_optimizer w)); [|destruct H].
      unfold startup_suffix in H. simpl in H.
      destruct H as [H|[H|[]]]; symmetry in H;
        [now apply Hf|now apply (Hd _ _ H)].
    - revert H. apply (not_in_class is_loop_event);
        [apply main_loop_events|exact Hl].
    - revert H. apply (not_in_class is_shutdown_event);
        [apply shutdown_events|exact Hs]. }
  split.
  - rewrite Hparts by (reflexivity || discriminate).
    unfold startup_prefix.
    destruct (1 <? world_size w) eqn:E;
      [apply Z.ltb_lt in E|apply Z.ltb_ge in E];
      destruct (String.eqb (data_name (args w)) "wikikg90m"),
               (async_update (args w)), (0 <? num_parameters w)%nat;
      cbn [app andb In]; split; intros H; try lia; try tauto;
      intuition discriminate.
  - rewrite Hparts by (reflexivity || discriminate).
    unfold startup_prefix.
    destruct (1 <? world_size w) eqn:E;
      [apply Z.ltb_lt in E|apply Z.ltb_ge in E];
      (destruct (0 <? num_parameters w)%nat eqn:En;
       [apply Nat.ltb_lt in En|apply Nat.ltb_ge in En]);
      destruct (String.eqb (data_name (args w)) "wikikg90m"),
               (async_update (args w));
      cbn [app andb In]; split; intros H; try lia; try tauto;
      intuition (try discriminate; try lia).
Qed.

Lemma periodic_events_incl step :
  incl (fst (periodic_actions w step))
       (log_events w step ++ valid_events w step ++ save_events w step
          ++ stop_events w step).
Proof.
  destruct (intervals_cases w) as [(Hl & He & Hs)|Hz].
  - rewrite periodic_actions_completes by assumption. apply incl_refl.
  - destruct (periodic_actions_raises w step Hz) as [_ Hi].
    intros e He. apply Hi in He. rewrite !in_app_iff in *. tauto.
Qed.

(** X11: a batch with a supported mode gets exactly one call of
    [model.step], also when the iteration later raises on a zero interval,
    and a batch with another mode gets none; the call carries the traces
    exactly when [mix_cpu_gpu] is set. *)
Theorem X11_one_update_per_supported_batch it :
  In it (iterations (main w)) ->
  count is_model_step (it_events it) =
    (if String.eqb (b_mode (it_batch it)) "head"
        || String.eqb (b_mode (it_batch it)) "tail"
     then 1%nat else 0%nat) /\
  forall t, In (EModelStep t) (it_events it) -> t = mix_cpu_gpu (args w).
Proof.
  intros Hin. destruct (main_iterations w it Hin) as (o & _ & Hrun).
  destruct (runs_step_events _ _ _ Hrun) as [Hev _].
  split.
  - destruct (mode_cases (it_batch it)) as [Hm|[Hh Ht]].
    + rewrite Hev, train_step_supported_events by assumption.
      rewrite (count_app _ (update_events w o (it_batch it))).
      rewrite (count_none _ (fst (periodic_actions w (it_step it)))).
      2:{ eapply incl_Forall; [apply periodic_events_incl|].
          repeat (apply Forall_app; split); forall_events. }
      assert (Hb : String.eqb (b_mode (it_batch it)) "head"
                   || String.eqb (b_mode (it_batch it)) "tail" = true).
      { destruct Hm as [Hm|Hm]; rewrite Hm; reflexivity. }
      rewrite Hb. unfold_events.
      destruct (b_has_rel_emb (it_batch it)),
               (b_has_all_ents_emb (it_batch it)),
               (String.eqb (b_mode (it_batch it)) "head"),
               (use_embedding_regularization (args w)), o,
               (mix_cpu_gpu (args w)); reflexivity.
    + rewrite Hev, train_step_unsupported by assumption. cbn [fst].
      apply String.eqb_neq in Hh, Ht. rewrite Hh, Ht. cbn [orb].
      unfold trainable_events.
      destruct (b_has_rel_emb (it_batch it)),
               (b_has_all_ents_emb (it_batch it)); reflexivity.
  - intros t Ht. rewrite Hev in Ht. apply train_step_events_incl in Ht.
    rewrite !in_app_iff in Ht.
    destruct Ht as [H|[H|[H|[H|H]]]];
      [|exfalso; revert H; not_in_events..].
    revert H. unfold_events.
    destruct (b_has_rel_emb (it_batch it)),
             (b_has_all_ents_emb (it_batch it)),
             (String.eqb (b_mode (it_batch it)) "head"),
             (use_embedding_regularization (args w)), o,
             (mix_cpu_gpu (args w));
      cbn [app In]; intuition (try discriminate; congruence).
Qed.

Lemma saved_paths_none (l : list (event TrueMap)) :
  Forall (fun e => is_save e = false) l -> saved_paths l = [].
Proof.
  unfold saved_paths. induction 1 as [|e l He _ IH]; simpl; [reflexivity|].
  rewrite IH. now destruct e.
Qed.

(** X12: when an interval that is consulted is zero, the first batch drawn
    ends the run: it is the only iteration, at counter 1, it raises (with
    [ZeroDivisionError] if its mode is supported), [main] raises the same
    exception, and no checkpoint is written. *)
Theorem X12_zero_interval_ends_first_iteration it :
  log_interval (args w) = 0 \/
  (valid (args w) = true /\ eval_interval (args w) = 0) \/
  save_interval (args w) = 0 ->
  In it (iterations (main w)) ->
  iterations (main w) = [it] /\
  it_step it = 1 /\
  saved_paths (trace (main w)) = [] /\
  exists e,
    it_result it = Raise e /\ r_raised (main w) = Some e /\
    (supported_mode (it_batch it) -> e = ZeroDivisionError).
Proof.
  intros Hz Hin.
  assert (Hn : ~ intervals_nonzero w).
  { intros (Hl & He & Hs). destruct Hz as [Hz|[[Hv Hz]|Hz]]; auto.
    now apply He. }
  assert (Hraise : forall x, In x (iterations (main w)) ->
            exists e, it_result x = Raise e /\
                      (supported_mode (it_batch x) ->
                       e = ZeroDivisionError) /\
                      Forall (fun e => is_save e = false) (it_events x)).
  { intros x Hx. destruct (main_iterations w x Hx) as (o & _ & Hrun).
    destruct (runs_step_events _ _ _ Hrun) as [Hev Hres].
    destruct (it_result x) as [y|e] eqn:E.
    - symmetry in Hres.
      destruct (train_step_ok_inv w o _ _ _ Hres) as [_ Hi].
      contradiction.
    - exists e. split; [reflexivity|]. split.
      + intros Hm.
        destruct (train_step_zero_division w o (it_step x) _ Hm Hn)
          as [Hr _].
        congruence.
      + rewrite Hev. eapply incl_Forall.
        * eapply train_step_raise_events. symmetry. exact Hres.
        * repeat (apply Forall_app; split); forall_events. }
  destruct (Hraise it Hin) as (e & Hres & Hmode & Hsave).
  destruct (raising_iteration_ends_run w it e Hin Hres) as [Hr [l Hl]].
  pose proof (main_counted w) as Hc.
  assert (Hnil : l = []).
  { destruct l as [|h t]; [reflexivity|exfalso].
    assert (Hh : In h (iterations (main w))) by (rewrite Hl; now left).
    destruct (Hraise h Hh) as (e' & Hres' & _).
    destruct (raising_iteration_ends_run w h e' Hh Hres') as [_ [l' Hl']].
    rewrite Hl in Hl'. apply app_inj_tail in Hl'. destruct Hl' as [_ <-].
    rewrite Hl in Hc. apply counted_from_app in Hc.
    cbn [counted_from] in Hc. destruct Hc as [[H1 _] [H2 _]].
    cbn [List.length] in H2. lia. }
  subst l. simpl in Hl.
  split; [exact Hl|]. split.
  { rewrite Hl in Hc. now destruct Hc. }
  split; [|now exists e].
  apply saved_paths_none. unfold trace.
  apply Forall_app; split; [|apply Forall_app; split].
  - eapply Forall_impl; [|apply main_startup_events].
    intros [] H; try discriminate H; reflexivity.
  - apply Forall_forall. intros x Hx. apply in_flat_map in Hx.
    destruct Hx as (ep & Hep & [<-|Hx]); [reflexivity|].
    apply in_flat_map in Hx. destruct Hx as (y & Hy & Hxy).
    assert (Hyin : In y (iterations (main w)))
      by (unfold iterations; apply in_flat_map; eauto).
    destruct (Hraise y Hyin) as (_ & _ & _ & Hall).
    rewrite Forall_forall in Hall. now apply Hall.
  - eapply Forall_impl; [|apply shutdown_events].
    intros [] H; try discriminate H; reflexivity.
Qed.

Lemma train_epochs_empty o es : forall step,
  (forall e, In e es -> train_loader w e = []) ->
  train_epochs w o step es =
  (map (fun e => {| ep_index := e; ep_iterations := [];
                    ep_end := Exhausted step |}) es, None).
Proof.
  induction es as [|e rest IH]; intros step Hall; simpl; [reflexivity|].
  rewrite (Hall e (or_introl eq_refl)). simpl.
  rewrite IH by (intros x Hx; apply Hall; now right). reflexivity.
Qed.

(** X13: over an empty training stream nothing is trained and nothing can
    fail after startup: [main] calls [model.train()] once per epoch and
    then runs the shutdown, whatever the intervals and [max_steps] are. *)
Theorem X13_empty_stream o :
  snd (select_optimizer w) = Ok o ->
  (forall e, In e (epoch_range w) -> train_loader w e = []) ->
  iterations (main w) = [] /\
  r_raised (main w) = None /\
  trace (main w) =
    r_startup (main w) ++
    repeat EModelTrain (Z.to_nat (num_epoch (args w))) ++
    shutdown w.
Proof.
  intros Ho Hempty. destruct (main_epochs w o Ho) as [He Hr].
  rewrite (train_epochs_empty o _ 1 Hempty) in He, Hr. cbn [fst snd] in *.
  assert (Hgen : forall es : list nat,
    flat_map (@ep_iterations TrueMap)
      (map (fun e => {| ep_index := e; ep_iterations := [];
                        ep_end := Exhausted 1 |}) es) = [] /\
    flat_map (@epoch_events TrueMap)
      (map (fun e => {| ep_index := e; ep_iterations := [];
                        ep_end := Exhausted 1 |}) es)
    = repeat EModelTrain (List.length es)).
  { induction es as [|e es [IH1 IH2]]; simpl; [now split|].
    now rewrite IH1, IH2. }
  destruct (Hgen (epoch_range w)) as [H1 H2].
  split; [unfold iterations; now rewrite He|].
  split; [exact Hr|].
  unfold trace. rewrite main_shutdown, Hr, He, H2.
  unfold epoch_range. now rewrite length_seq.
Qed.

Lemma string_app_inj_l (a x y : string) :
  (a ++ x)%string = (a ++ y)%string -> x = y.
Proof.
  induction a as [|c a IH]; simpl; [auto|]. intros [= H]. auto.
Qed.

Lemma str_of_int_inj n m : str_of_int n = str_of_int m -> n = m.
Proof.
  unfold str_of_int. intros H.
  assert (Hnz : forall z, Z.to_int z <> Decimal.Pos Decimal.Nil /\
                          Z.to_int z <> Decimal.Neg Decimal.Nil).
  { intros [|p|p]; simpl; split; try discriminate; intros [= E];
      now apply (DecimalPos.Unsigned.to_uint_nonnil p). }
  apply DecimalZ.to_int_inj.
  assert (E : Some (Z.to_int n) = Some (Z.to_int m)).
  { rewrite <- (NilZero.isi (Z.to_int n)) by apply Hnz.
    rewrite <- (NilZero.isi (Z.to_int m)) by apply Hnz.
    now rewrite H. }
  now injection E.
Qed.

Lemma step_path_inj n m : step_path w n = step_path w m -> n = m.
Proof.
  unfold step_path, os_path_join. cbn [String.append startswith_sep].
  change (Ascii.eqb "s" "/") with false. cbv iota.
  intros H. apply str_of_int_inj.
  destruct (String.eqb (save_path (args w)) "" ||
            endswith_sep (save_path (args w)));
    apply string_app_inj_l in H; now injection H.
Qed.

Lemma saved_paths_app (l1 l2 : list (event TrueMap)) :
  saved_paths (l1 ++ l2) = saved_paths l1 ++ saved_paths l2.
Proof. apply flat_map_app. Qed.

(** An iteration saves at most once, to the directory of its own counter
    after the increment. *)
Lemma iteration_saved_paths it :
  In it (iterations (main w)) ->
  saved_paths (it_events it) = [] \/
  saved_paths (it_events it) = [step_path w (it_step it + 1)].
Proof.
  intros Hin. destruct (it_result it) as [[n f]|e] eqn:Hres.
  - destruct (iteration_completes w it n f Hin Hres)
      as (_ & _ & _ & o & _ & Hev).
    rewrite Hev, !saved_paths_app.
    rewrite (saved_paths_none (update_events w o (it_batch it)))
      by forall_events.
    rewrite (saved_paths_none (log_events w (it_step it)))
      by forall_events.
    rewrite (saved_paths_none (valid_events w (it_step it)))
      by forall_events.
    rewrite (saved_paths_none (stop_events w (it_step it)))
      by forall_events.
    unfold save_events.
    destruct (((it_step it + 1) mod save_interval (args w) =? 0)
              || (it_step it + 1 >? max_steps (args w)));
      [right|left]; reflexivity.
  - left. destruct (main_iterations w it Hin) as (o & _ & Hrun).
    destruct (runs_step_events _ _ _ Hrun) as [Hev Hx].
    apply saved_paths_none. rewrite Hev. eapply incl_Forall.
    + eapply train_step_raise_events. rewrite <- Hx. exact Hres.
    + repeat (apply Forall_app; split); forall_events.
Qed.

Lemma counted_saved_paths step (its : list (iteration TrueMap)) :
  counted_from step its ->
  (forall it, In it its ->
     saved_paths (it_events it) = [] \/
     saved_paths (it_events it) = [step_path w (it_step it + 1)]) ->
  NoDup (saved_paths (flat_map it_events its)) /\
  forall p, In p (saved_paths (flat_map it_events its)) ->
            exists n, step < n /\ p = step_path w n.
Proof.
  revert step. induction its as [|it its IH]; intros step Hc Hs.
  - simpl. split; [constructor|intros p []].
  - destruct Hc as [Hstep Hc].
    destruct (IH (step + 1) Hc (fun x Hx => Hs x (or_intror Hx)))
      as [Hnd Hin].
    cbn [flat_map]. rewrite saved_paths_app.
    destruct (Hs it (or_introl eq_refl)) as [E|E]; rewrite E; simpl.
    + split; [exact Hnd|]. intros p Hp.
      destruct (Hin p Hp) as (n & Hn & ->). exists n. split; [lia|auto].
    + split.
      * constructor; [|exact Hnd]. intros Hp.
        destruct (Hin _ Hp) as (n & Hn & En).
        apply step_path_inj in En. lia.
      * intros p [<-|Hp].
        -- exists (it_step it + 1). split; [lia|reflexivity].
        -- destruct (Hin p Hp) as (n & Hn & ->). exists n.
           split; [lia|auto].
Qed.

Lemma saved_paths_epochs (eps : list (epoch_log TrueMap)) :
  saved_paths (flat_map epoch_events eps) =
  saved_paths (flat_map it_events (flat_map ep_iterations eps)).
Proof.
  induction eps as [|ep eps IH]; simpl; [reflexivity|].
  rewrite flat_map_app, !saved_paths_app, IH. reflexivity.
Qed.

(** X14: no checkpoint directory is written twice in a run: the paths
    handed to [model.save] are pairwise distinct, each of them
    [os.path.join(save_path, 'step_<n>')] for a counter [n] above 1. *)
Theorem X14_checkpoint_paths_distinct :
  NoDup (saved_paths (trace (main w))) /\
  forall p, In p (saved_paths (trace (main w))) ->
    exists n, 1 < n /\
      p = os_path_join (save_path (args w))
            ("step_" ++ str_of_int n)%string.
Proof.
  assert (E : saved_paths (trace (main w)) =
              saved_paths (flat_map it_events (iterations (main w)))).
  { unfold trace. rewrite !saved_paths_app.
    rewrite (saved_paths_none (r_startup (main w))).
    2:{ eapply Forall_impl; [|apply main_startup_events].
        intros [] H; try discriminate H; reflexivity. }
    rewrite (saved_paths_none (r_shutdown (main w))).
    2:{ eapply Forall_impl; [|apply shutdown_events].
        intros [] H; try discriminate H; reflexivity. }
    rewrite app_nil_r. apply saved_paths_epochs. }
  rewrite E.
  apply (counted_saved_paths 1); [apply main_counted|].
  intros it Hin. now apply iteration_saved_paths.
Qed.

End Extras.

(** ** The further properties on the example runs *)

Lemma X2_witness :
  r_raised (main world_async) = None /\
  r_shutdown (main world_async) = shutdown world_async /\
  map ep_index (r_epochs (main world_async)) = epoch_range world_async.
Proof.
  apply (X2_returns_on_supported_input world_async).
  - right. left. reflexivity.
  - repeat split; discriminate.
  - intros e b _ [<-|[<-|[]]]; [left|right]; reflexivity.
Defined.

Lemma X3_witness :
  exists l it,
    iterations (main world_async_odd) = l ++ [it] /\
    b_mode (it_batch it) = "head-batch".
Proof.
  destruct (X3_exceptions_of_main world_async_odd _ eq_refl)
    as [(_ & _ & _ & _ & H)|[(l & it & Hl & _)|(l & it & Hl & _)]].
  - discriminate H.
  - exists l, it. split; [exact Hl|].
    apply (f_equal (fun x => map (fun i => b_mode (it_batch i)) (rev x)))
      in Hl.
    rewrite rev_app_distr in Hl. simpl in Hl. now injection Hl.
  - exists l, it. split; [exact Hl|].
    apply (f_equal (fun x => map (fun i => b_mode (it_batch i)) (rev x)))
      in Hl.
    rewrite rev_app_distr in Hl. simpl in Hl. now injection Hl.
Defined.

Lemma X4_witness :
  broke (nth_epoch (main world_two_epochs) 0) = true /\
  map ep_index (r_epochs (main world_two_epochs)) = [0; 1]%nat.
Proof.
  split; [reflexivity|].
  apply (proj2 (X4_every_epoch_is_started world_two_epochs)). reflexivity.
Defined.

Lemma X5_witness :
  map it_batch (ep_iterations (nth_epoch (main world_no_test) 0)) =
  [head_batch; tail_batch; head_batch].
Proof.
  apply (proj2 (X5_batches_in_stream_order world_no_test
                  (nth_epoch (main world_no_test) 0) (or_introl eq_refl)));
    reflexivity.
Defined.

Lemma X6_witness :
  ep_end (nth_epoch (main world_two_epochs) 0) = Broke 2 /\
  (List.length (ep_iterations (nth_epoch (main world_two_epochs) 1)) <= 1)%nat.
Proof.
  destruct (X6_break_ends_epoch_only world_two_epochs
              [] (nth_epoch (main world_two_epochs) 0)
              [nth_epoch (main world_two_epochs) 1]
              [] (nth_iteration (main world_two_epochs) 0) []
              eq_refl eq_refl eq_refl eq_refl) as (_ & Hend & Hlater).
  split; [exact Hend|]. apply Hlater. now left.
Defined.

Lemma X7_witness :
  In (EPrintLog 1 2) (it_events (nth_iteration (main world_logging) 0)).
Proof.
  apply (X7_log_schedule world_logging
           (nth_iteration (main world_logging) 0) 2 Next 1 2
           (or_introl eq_refl) eq_refl).
  repeat split.
Defined.

Lemma X8_witness :
  In (EGetNegScore HEmb false)
     (it_events (nth_iteration (main world_no_test) 1)).
Proof.
  apply (X8_negative_score_by_mode world_no_test
           (nth_iteration (main world_no_test) 1) HEmb false
           (or_intror (or_introl eq_refl))).
  right. repeat split.
Defined.

Lemma X9_witness :
  Some example_dict = filter_dict world_filter_eval /\
  valid (args world_filter_eval) = true.
Proof.
  destruct (X9_evaluate_calls world_filter_eval
              ValidLoader "valid" (Some example_dict) None)
    as [Hfd [(_ & _ & _ & Hv)|(H & _)]].
  - vm_compute. tauto.
  - split; [exact Hfd|exact Hv].
  - discriminate H.
Defined.

Lemma X11_witness :
  count is_model_step
        (it_events (nth_iteration (main world_zero_log) 0)) = 1%nat.
Proof.
  apply (X11_one_update_per_supported_batch world_zero_log
           (nth_iteration (main world_zero_log) 0) (or_introl eq_refl)).
Defined.

Lemma X12_witness :
  iterations (main world_zero_log) =
    [nth_iteration (main world_zero_log) 0] /\
  it_step (nth_iteration (main world_zero_log) 0) = 1 /\
  saved_paths (trace (main world_zero_log)) = [].
Proof.
  destruct (X12_zero_interval_ends_first_iteration world_zero_log
              (nth_iteration (main world_zero_log) 0)
              (or_introl eq_refl) (or_introl eq_refl))
    as (H1 & H2 & H3 & _).
  now repeat split.
Defined.

Lemma X13_witness :
  r_raised (main world_empty) = None /\
  trace (main world_empty) =
    r_startup (main world_empty) ++
    repeat EModelTrain (Z.to_nat (num_epoch (args world_empty))) ++
    shutdown world_empty.
Proof.
  apply (X13_empty_stream world_empty (Some Adam) eq_refl).
  intros e _. reflexivity.
Defined.
